(** * PacketLib: the frame codec and the acknowledgment-tracking dispatcher

    A shallow embedding of [namespace PacketLib] (main.ts) and the
    properties of its frame codec, checksum, string fields, pending-ack
    list and receive dispatcher.

    Numbers are [Z]; a [Buffer] is the list of its bytes; a string is the
    list of its character codes, as [charCodeAt] returns them and
    [String.fromCharCode] takes them.  The module state ([localId],
    [receiveHandler], [pendingAcks]) is passed explicitly, and what the
    code does to the outside (a frame handed to [radio.sendBuffer], a call
    of the registered handler) is returned as a list of events.

    The library is written for MakeCode (micro:bit): [pins.createBuffer],
    [NumberFormat.UInt16LE], [removeAt], [randint], [radio.sendBuffer].
    Its runtime is modelled first: a Buffer has a fixed length, a load
    outside it gives 0, a store outside it is dropped, a stored value is
    cut to eight bits, and [slice] takes an offset and a length. *)

From Stdlib Require Import ZArith Lia List Bool.
From stdpp Require Import base list.
Import ListNotations.
Local Open Scope Z_scope.

(** ** The MakeCode runtime: buffers, strings, arrays, random numbers *)

(** A value is a byte when it is in [0, 255]; a buffer delivered by the radio
    or built by the runtime holds only bytes. *)
Definition is_byte (v : Z) : bool := (0 <=? v) && (v <? 256).
Definition bytes (b : list Z) : Prop := Forall (fun v => is_byte v = true) b.

Definition buf_length (b : list Z) : Z := Z.of_nat (length b).
Definition str_length (s : list Z) : Z := Z.of_nat (length s).

Definition in_range (b : list Z) (i : Z) : bool :=
  (0 <=? i) && (i <? buf_length b).

(** [buf[i]]: the byte at [i], and 0 outside the buffer. *)
Definition getByte (b : list Z) (i : Z) : Z :=
  if in_range b i then default 0 (b !! Z.to_nat i) else 0.

(** [buf[i] = v]: stores the low eight bits of [v]; a store outside the
    buffer is dropped (a buffer never grows). *)
Definition setByte (b : list Z) (i v : Z) : list Z :=
  if in_range b i then <[Z.to_nat i := Z.land v 255]> b else b.

(** [pins.createBuffer(n)]: [n] zero bytes. *)
Definition createBuffer (n : Z) : list Z := replicate (Z.to_nat n) 0.

(** [buf.slice(offset, length)], MakeCode's [Buffer.slice(offset?: int32,
    length?: int32)]: a copy of [length] bytes from [offset]; the offset is
    clamped to the buffer, a negative length stands for the whole length,
    and the length is clamped to what remains after the offset. *)
Definition slice (b : list Z) (offset len : Z) : list Z :=
  let offset := Z.min (buf_length b) offset in
  let len := if len <? 0 then buf_length b else len in
  let len := Z.min len (buf_length b - offset) in
  take (Z.to_nat len) (drop (Z.to_nat offset) b).

(** [buf.setNumber(NumberFormat.UInt16LE, offset, v)] and
    [buf.getNumber(NumberFormat.UInt16LE, offset)]: two bytes, low byte
    first; outside the buffer the store is dropped and the load is 0. *)
Definition setNumber_UInt16LE (b : list Z) (offset v : Z) : list Z :=
  if (0 <=? offset) && (offset + 2 <=? buf_length b)
  then setByte (setByte b offset v) (offset + 1) (Z.shiftr v 8)
  else b.

Definition getNumber_UInt16LE (b : list Z) (offset : Z) : Z :=
  if (0 <=? offset) && (offset + 2 <=? buf_length b)
  then Z.lor (getByte b offset) (Z.shiftl (getByte b (offset + 1)) 8)
  else 0.

(** [value.charCodeAt(i)] for [i] inside the string. *)
Definition charCodeAt (s : list Z) (i : Z) : Z :=
  default 0 (s !! Z.to_nat i).

(** [a == b] on strings. *)
Fixpoint string_eqb (a b : list Z) : bool :=
  match a, b with
  | [], [] => true
  | x :: a', y :: b' => (x =? y) && string_eqb a' b'
  | _, _ => false
  end.

(** [arr.indexOf(x)]: the first index holding [x], or -1. *)
Fixpoint indexOf_from (l : list Z) (x : Z) (i : Z) : Z :=
  match l with
  | [] => -1
  | y :: t => if y =? x then i else indexOf_from t x (i + 1)
  end.
Definition indexOf (l : list Z) (x : Z) : Z := indexOf_from l x 0.

(** [arr.removeAt(idx)]. *)
Definition removeAt (l : list Z) (idx : Z) : list Z :=
  take (Z.to_nat idx) l ++ drop (S (Z.to_nat idx)) l.

(** [for (let i = start; cond(i); i++) acc = body(i, acc)].  Every loop of
    the library runs over an index bounded by a length that its body does
    not change, which is the fuel it is given. *)
Fixpoint for_loop {A : Type} (fuel : nat) (cond : Z -> bool)
    (body : Z -> A -> A) (i : Z) (acc : A) : A :=
  match fuel with
  | O => acc
  | S fuel' =>
      if cond i then for_loop fuel' cond body (i + 1) (body i acc) else acc
  end.

(** ** Constants, types and state (main.ts 61-95) *)

Definition PROTOCOL_VERSION : Z := 1.
Definition FLAG_ACK_REQUIRED : Z := 1.
Definition FLAG_IS_ACK : Z := 2.

Record Packet := mkPacket {
  version : Z;
  flags : Z;
  id : Z;
  source : list Z;
  destination : list Z;
  payload : list Z
}.

(** A registered callback is named by a handle; calling it is an event. *)
Definition Handler := nat.

(** [entropy] is the sequence of raw values the platform's random source
    will deliver next. *)
Record State := mkState {
  localId : list Z;
  receiveHandler : option Handler;
  pendingAcks : list Z;
  entropy : list Z
}.

Inductive Event :=
| RadioSend (frame : list Z)
| HandlerCall (h : Handler) (p : Packet).

Definition set_pendingAcks (st : State) (l : list Z) : State :=
  mkState (localId st) (receiveHandler st) l (entropy st).
Definition set_entropy (st : State) (l : list Z) : State :=
  mkState (localId st) (receiveHandler st) (pendingAcks st) l.
Definition set_receiveHandler (st : State) (h : option Handler) : State :=
  mkState (localId st) h (pendingAcks st) (entropy st).

(** [randint(lo, hi)]: an integer of [lo..hi], both included, taken from the
    next raw value of the random source. *)
Definition randint (lo hi : Z) (st : State) : Z * State :=
  match entropy st with
  | [] => (lo, st)
  | r :: rest => (lo + r mod (hi - lo + 1), set_entropy st rest)
  end.

(** ** Utility functions (main.ts 53-57, 99-129) *)

Definition copyBuffer (src dst : list Z) (offset : Z) : list Z :=
  for_loop (length src)
    (fun i => (i <? buf_length src) && (offset + i <? buf_length dst))
    (fun i dst => setByte dst (offset + i) (getByte src i))
    0 dst.

Definition generatePacketId (st : State) : Z * State := randint 1 65535 st.

Definition computeChecksum (buf : list Z) (length_ : Z) : Z :=
  let sum :=
    for_loop (length buf)
      (fun i => (i <? length_) && (i <? buf_length buf))
      (fun i sum => Z.lxor sum (getByte buf i))
      0 0 in
  Z.land sum 255.

(** [writeString] returns the buffer it has written into and its result. *)
Definition writeString (buf : list Z) (offset : Z) (value : list Z)
  : list Z * Z :=
  let buf := setByte buf offset (str_length value) in
  let buf :=
    for_loop (length value)
      (fun i => (i <? str_length value) && (offset + 1 + i <? buf_length buf))
      (fun i buf => setByte buf (offset + 1 + i) (charCodeAt value i))
      0 buf in
  (buf, 1 + str_length value).

Record StringField := mkStringField { value : list Z; size : Z }.

(** [readString], together with the buffer indices it loads from, in order. *)
Definition readString_traced (buf : list Z) (offset : Z)
  : StringField * list Z :=
  let len := getByte buf offset in
  let len :=
    if offset + 1 + len >? buf_length buf
    then Z.max 0 (buf_length buf - (offset + 1))
    else len in
  let '(s, reads) :=
    for_loop (Z.to_nat len)
      (fun i => i <? len)
      (fun i '(s, reads) =>
         (s ++ [getByte buf (offset + 1 + i)], reads ++ [offset + 1 + i]))
      0 ([], [offset]) in
  (mkStringField s (1 + len), reads).

Definition readString (buf : list Z) (offset : Z) : StringField :=
  fst (readString_traced buf offset).

(** ** Encoding (main.ts 133-172) *)

Definition encodePacket (st : State) (id : Z) (destination : list Z)
    (payload : list Z) (flags : Z) : list Z * State :=
  let '(id, st) := if id =? 0 then generatePacketId st else (id, st) in
  let payloadLen := buf_length payload in
  let payloadLen := if payloadLen >? 255 then 255 else payloadLen in
  let baseSize :=
    1 + 1 + 2 +
    1 + str_length (localId st) +
    1 + str_length destination +
    1 + payloadLen +
    1 in
  let buf := createBuffer baseSize in
  let offset := 0 in
  let buf := setByte buf offset PROTOCOL_VERSION in
  let offset := offset + 1 in
  let buf := setByte buf offset flags in
  let offset := offset + 1 in
  let buf := setNumber_UInt16LE buf offset id in
  let offset := offset + 2 in
  let '(buf, n) := writeString buf offset (localId st) in
  let offset := offset + n in
  let '(buf, n) := writeString buf offset destination in
  let offset := offset + n in
  let buf := setByte buf offset payloadLen in
  let offset := offset + 1 in
  let buf := copyBuffer (slice payload 0 payloadLen) buf offset in
  let offset := offset + payloadLen in
  let buf := setByte buf offset (computeChecksum buf offset) in
  (buf, st).

(** ** Decoding (main.ts 176-203)

    The calls are embedded as written: [buf.slice(offset, end)] hands the
    end index the decoder has computed to [slice] as its second argument. *)

Definition decodePacket (buf : list Z) : Packet :=
  let offset := 0 in
  let version := getByte buf offset in
  let offset := offset + 1 in
  let flags := getByte buf offset in
  let offset := offset + 1 in
  let id := getNumber_UInt16LE buf offset in
  let offset := offset + 2 in
  let src := readString buf offset in
  let offset := offset + size src in
  let dst := readString buf offset in
  let offset := offset + size dst in
  let payloadLen := getByte buf offset in
  let offset := offset + 1 in
  let end_ := offset + payloadLen in
  let end_ := if end_ >? buf_length buf - 1 then buf_length buf - 1 else end_ in
  let payload := slice buf offset end_ in
  mkPacket version flags id (value src) (value dst) payload.

(** ** Public API (main.ts 216-241) *)

Definition sendPacket (st : State) (id : Z) (payload : list Z)
    (destination : list Z) (flags : Z) : State * list Event :=
  let '(id, st) := if id =? 0 then generatePacketId st else (id, st) in
  let '(pkt, st) := encodePacket st id destination payload flags in
  let st :=
    if negb (Z.land flags FLAG_ACK_REQUIRED =? 0)
    then set_pendingAcks st (pendingAcks st ++ [id])
    else st in
  (st, [RadioSend pkt]).

Definition onReceivePacket (st : State) (handler : Handler) : State :=
  set_receiveHandler st (Some handler).

(** [bufferToString] and [stringToBuffer] (main.ts 248-262). *)
Definition bufferToString (buf : list Z) : list Z :=
  for_loop (length buf)
    (fun i => i <? buf_length buf)
    (fun i s => s ++ [getByte buf i])
    0 [].

Definition stringToBuffer (s : list Z) : list Z :=
  let buf := createBuffer (str_length s) in
  for_loop (length s)
    (fun i => i <? str_length s)
    (fun i buf => setByte buf i (charCodeAt s i))
    0 buf.

(** ** Radio integration (main.ts 266-296)

    The buffer the radio delivers may be absent ([!buf]). *)
Definition onReceivedBuffer (st : State) (inbound : option (list Z))
  : State * list Event :=
  match inbound with
  | None => (st, [])
  | Some buf =>
      if buf_length buf <? 6 then (st, []) else
      let checksum := getByte buf (buf_length buf - 1) in
      if negb (computeChecksum buf (buf_length buf - 1) =? checksum)
      then (st, [])
      else
        let packet := decodePacket buf in
        if negb (Z.land (flags packet) FLAG_IS_ACK =? 0) then
          let idx := indexOf (pendingAcks st) (id packet) in
          if idx >=? 0
          then (set_pendingAcks st (removeAt (pendingAcks st) idx), [])
          else (st, [])
        else
          let '(st, sent) :=
            if negb (Z.land (flags packet) FLAG_ACK_REQUIRED =? 0) then
              let '(ack, st) :=
                encodePacket st (id packet) (source packet)
                  (createBuffer 0) FLAG_IS_ACK in
              (st, [RadioSend ack])
            else (st, []) in
          match receiveHandler st with
          | Some h =>
              if string_eqb (destination packet) (localId st)
                 || string_eqb (destination packet) [42]
                 || string_eqb (destination packet) []
              then (st, sent ++ [HandlerCall h packet])
              else (st, sent)
          | None => (st, sent)
          end
  end.

(** ** What the frame layout of the protocol prescribes

    The XOR of a byte sequence, and the frame of section "Packet Structure":
    version, flags, id (low byte first), length-prefixed source and
    destination, length-prefixed payload, and the XOR of all of it. *)

Definition xor_all (l : list Z) : Z := fold_left Z.lxor l 0.

Definition frame_body (flags id : Z) (src dst payload : list Z) : list Z :=
  [PROTOCOL_VERSION; flags; id mod 256; id / 256]
  ++ str_length src :: src
  ++ str_length dst :: dst
  ++ buf_length payload :: payload.

Definition frame (flags id : Z) (src dst payload : list Z) : list Z :=
  frame_body flags id src dst payload
  ++ [xor_all (frame_body flags id src dst payload)].

(** ** Notions the properties are stated with *)

(** The low eight bits of a value, as a byte store keeps them, and the bytes
    the encoder writes for arbitrary arguments. *)
Definition low8 (v : Z) : Z := Z.land v 255.

Definition wire_body (flags id : Z) (src dst pl : list Z) : list Z :=
  [PROTOCOL_VERSION; low8 flags; low8 id; low8 (Z.shiftr id 8)]
  ++ low8 (str_length src) :: (low8 <$> src)
  ++ low8 (str_length dst) :: (low8 <$> dst)
  ++ low8 (buf_length pl) :: (low8 <$> pl).

Definition wire (flags id : Z) (src dst pl : list Z) : list Z :=
  wire_body flags id src dst pl ++ [low8 (xor_all (wire_body flags id src dst pl))].

(** A string or payload that fits a field of the frame: byte-valued
    characters, at most 255 of them. *)
Definition short_bytes (l : list Z) : Prop :=
  bytes l /\ (length l <= 255)%nat.

(** The last byte is the XOR of all the bytes before it. *)
Definition checksum_valid (buf : list Z) : Prop :=
  getByte buf (buf_length buf - 1) = xor_all (take (length buf - 1) buf).

(** A byte sequence that passes the length and checksum tests of the
    dispatcher. *)
Definition valid_frame (buf : list Z) : Prop :=
  bytes buf /\ 6 <= buf_length buf /\ checksum_valid buf.

(** Removing the first occurrence of an id, as [resolveAck] is described. *)
Fixpoint remove_first (x : Z) (l : list Z) : list Z :=
  match l with
  | [] => []
  | y :: t => if y =? x then t else y :: remove_first x t
  end.

(** What the dispatcher reports to the outside. *)
Definition radio_sends (evs : list Event) : list (list Z) :=
  omap (fun e => match e with RadioSend b => Some b | _ => None end) evs.

Definition handler_calls (evs : list Event) : list (Handler * Packet) :=
  omap (fun e => match e with HandlerCall h p => Some (h, p) | _ => None end) evs.

(** The destination is the local identity, "*" or the empty string. *)
Definition addressed_here (st : State) (p : Packet) : Prop :=
  destination p = localId st \/ destination p = [42] \/ destination p = [].

(** Flipping bit [k] of the byte at index [i]. *)
Definition flip_bit (buf : list Z) (i k : Z) : list Z :=
  setByte buf i (Z.lxor (getByte buf i) (Z.shiftl 1 k)).

(** * The second copy of the namespace (main.ts 316-523)

    The file holds a second, earlier copy of [namespace PacketLib] without
    the bounds checks of the first: no length test and no destination test
    in the dispatcher, no clamp in [readString], and a [sendPacket] that
    leaves the generation of the id to [encodePacket].  The functions that
    differ are embedded here.  What [payload.copyTo(buf, offset)] copies is
    left open; nothing below depends on it.  This dispatcher reads
    [buf.length] at once, so it is given a buffer that is present. *)

Module SecondCopy.
Section WithCopyTo.

Variable copyTo : list Z -> list Z -> Z -> list Z.

Definition computeChecksum (buf : list Z) (length_ : Z) : Z :=
  for_loop (Z.to_nat length_)
    (fun i => i <? length_)
    (fun i sum => Z.lxor sum (getByte buf i))
    0 0.

Definition writeString (buf : list Z) (offset : Z) (value : list Z)
  : list Z * Z :=
  let buf := setByte buf offset (str_length value) in
  let buf :=
    for_loop (length value)
      (fun i => i <? str_length value)
      (fun i buf => setByte buf (offset + 1 + i) (charCodeAt value i))
      0 buf in
  (buf, 1 + str_length value).

Definition readString_traced (buf : list Z) (offset : Z)
  : StringField * list Z :=
  let len := getByte buf offset in
  let '(s, reads) :=
    for_loop (Z.to_nat len)
      (fun i => i <? len)
      (fun i '(s, reads) =>
         (s ++ [getByte buf (offset + 1 + i)], reads ++ [offset + 1 + i]))
      0 ([], [offset]) in
  (mkStringField s (1 + len), reads).

Definition readString (buf : list Z) (offset : Z) : StringField :=
  fst (readString_traced buf offset).

Definition encodePacket (st : State) (id : Z) (destination : list Z)
    (payload : list Z) (flags : Z) : list Z * State :=
  let '(id, st) := if id =? 0 then generatePacketId st else (id, st) in
  let baseSize :=
    1 + 1 + 2 +
    1 + str_length (localId st) +
    1 + str_length destination +
    1 + buf_length payload +
    1 in
  let buf := createBuffer baseSize in
  let offset := 0 in
  let buf := setByte buf offset PROTOCOL_VERSION in
  let offset := offset + 1 in
  let buf := setByte buf offset flags in
  let offset := offset + 1 in
  let buf := setNumber_UInt16LE buf offset id in
  let offset := offset + 2 in
  let '(buf, n) := writeString buf offset (localId st) in
  let offset := offset + n in
  let '(buf, n) := writeString buf offset destination in
  let offset := offset + n in
  let buf := setByte buf offset (buf_length payload) in
  let offset := offset + 1 in
  let buf := copyTo payload buf offset in
  let offset := offset + buf_length payload in
  let buf := setByte buf offset (computeChecksum buf offset) in
  (buf, st).

Definition decodePacket (buf : list Z) : Packet :=
  let offset := 0 in
  let version := getByte buf offset in
  let offset := offset + 1 in
  let flags := getByte buf offset in
  let offset := offset + 1 in
  let id := getNumber_UInt16LE buf offset in
  let offset := offset + 2 in
  let src := readString buf offset in
  let offset := offset + size src in
  let dst := readString buf offset in
  let offset := offset + size dst in
  let payloadLen := getByte buf offset in
  let offset := offset + 1 in
  let payload := slice buf offset payloadLen in
  mkPacket version flags id (value src) (value dst) payload.

Definition sendPacket (st : State) (id : Z) (payload : list Z)
    (destination : list Z) (flags : Z) : State * list Event :=
  let '(pkt, st) := encodePacket st id destination payload flags in
  let st :=
    if negb (Z.land flags FLAG_ACK_REQUIRED =? 0)
    then set_pendingAcks st (pendingAcks st ++ [id])
    else st in
  (st, [RadioSend pkt]).

Definition onReceivedBuffer (st : State) (buf : list Z) : State * list Event :=
  let checksum := getByte buf (buf_length buf - 1) in
  if negb (computeChecksum buf (buf_length buf - 1) =? checksum)
  then (st, [])
  else
    let packet := decodePacket buf in
    if negb (Z.land (flags packet) FLAG_IS_ACK =? 0) then
      let idx := indexOf (pendingAcks st) (id packet) in
      if idx >=? 0
      then (set_pendingAcks st (removeAt (pendingAcks st) idx), [])
      else (st, [])
    else
      let '(st, sent) :=
        if negb (Z.land (flags packet) FLAG_ACK_REQUIRED =? 0) then
          let '(ack, st) :=
            encodePacket st (id packet) (source packet)
              (createBuffer 0) FLAG_IS_ACK in
          (st, [RadioSend ack])
        else (st, []) in
      match receiveHandler st with
      | Some h => (st, sent ++ [HandlerCall h packet])
      | None => (st, sent)
      end.

End WithCopyTo.
End SecondCopy.

(** ** Loops as folds over their index range *)

Lemma for_loop_range {A : Type} (cond : Z -> bool) (body : Z -> A -> A) :
  forall (k fuel s : nat) (acc : A),
    (k <= fuel)%nat ->
    (forall j : nat, (s <= j < s + k)%nat -> cond (Z.of_nat j) = true) ->
    (k = fuel \/ cond (Z.of_nat (s + k)) = false) ->
    for_loop fuel cond body (Z.of_nat s) acc
    = fold_left (fun a j => body (Z.of_nat j) a) (seq s k) acc.
Proof.
  induction k as [|k IH]; intros fuel s acc Hle Hc Hstop.
  - destruct fuel as [|fuel]; [reflexivity|].
    destruct Hstop as [Hk|Hf]; [discriminate|].
    simpl. rewrite Nat.add_0_r in Hf. now rewrite Hf.
  - destruct fuel as [|fuel]; [lia|].
    simpl. rewrite (Hc s) by lia.
    replace (Z.of_nat s + 1) with (Z.of_nat (S s)) by lia.
    apply IH; [lia | intros j Hj; apply Hc; lia |].
    destruct Hstop as [Hk|Hf]; [left; lia | right].
    now replace (S s + k)%nat with (s + S k)%nat by lia.
Qed.

(** ** Buffers *)

Lemma length_setByte b i v : length (setByte b i v) = length b.
Proof. unfold setByte. destruct (in_range b i); [apply length_insert|reflexivity]. Qed.

Lemma buf_length_setByte b i v : buf_length (setByte b i v) = buf_length b.
Proof. unfold buf_length. now rewrite length_setByte. Qed.

Lemma in_range_spec b i : in_range b i = true <-> 0 <= i < buf_length b.
Proof. unfold in_range. rewrite andb_true_iff, Z.leb_le, Z.ltb_lt. tauto. Qed.

Lemma in_range_app_here (w : list Z) x r :
  in_range (w ++ x :: r) (Z.of_nat (length w)) = true.
Proof.
  apply in_range_spec. unfold buf_length. rewrite length_app. simpl. lia.
Qed.

Lemma setByte_app_here (w : list Z) x r v :
  setByte (w ++ x :: r) (Z.of_nat (length w)) v = w ++ Z.land v 255 :: r.
Proof.
  unfold setByte. rewrite in_range_app_here, Nat2Z.id.
  rewrite insert_app_r_alt by lia. now rewrite Nat.sub_diag.
Qed.

Lemma getByte_app_here (w : list Z) x r :
  getByte (w ++ x :: r) (Z.of_nat (length w)) = x.
Proof.
  unfold getByte. rewrite in_range_app_here, Nat2Z.id.
  now rewrite list_lookup_middle.
Qed.

Lemma getByte_nat (b : list Z) (j : nat) :
  getByte b (Z.of_nat j) = default 0 (b !! j).
Proof.
  unfold getByte, in_range, buf_length. rewrite Nat2Z.id.
  destruct (b !! j) eqn:E.
  - apply lookup_lt_Some in E.
    replace (0 <=? Z.of_nat j) with true by (symmetry; apply Z.leb_le; lia).
    replace (Z.of_nat j <? Z.of_nat (length b)) with true
      by (symmetry; apply Z.ltb_lt; lia).
    reflexivity.
  - now destruct (_ && _).
Qed.

Lemma for_loop_from_0 {A : Type} (cond : Z -> bool) (body : Z -> A -> A)
    (k fuel : nat) (acc : A) :
  (k <= fuel)%nat ->
  (forall j : nat, (j < k)%nat -> cond (Z.of_nat j) = true) ->
  (k = fuel \/ cond (Z.of_nat k) = false) ->
  for_loop fuel cond body 0 acc
  = fold_left (fun a j => body (Z.of_nat j) a) (seq 0 k) acc.
Proof.
  intros Hle Hc Hstop.
  apply (for_loop_range cond body k fuel 0%nat acc Hle).
  - intros j Hj. apply Hc. lia.
  - exact Hstop.
Qed.

Lemma fmap_lookup_seq {B : Type} (g : Z -> B) (l : list Z) :
  (fun j : nat => g (default 0 (l !! j))) <$> seq 0 (length l) = g <$> l.
Proof.
  apply list_eq. intros i. rewrite !list_lookup_fmap.
  destruct (decide (i < length l)%nat) as [Hlt|Hge].
  - rewrite lookup_seq_lt by lia. simpl.
    destruct (lookup_lt_is_Some_2 l i Hlt) as [x Hx]. now rewrite Hx.
  - rewrite lookup_seq_ge by lia. now rewrite lookup_ge_None_2 by lia.
Qed.

(** Storing [f 0], [f 1], ... from position [p] on fills the bytes that
    follow the part of the buffer already written. *)
Lemma blit_fold (p : Z) (f : Z -> Z) :
  forall (k s : nat) (w mid r : list Z),
    Z.of_nat (length w) = p + Z.of_nat s ->
    length mid = k ->
    fold_left (fun b j => setByte b (p + Z.of_nat j) (f (Z.of_nat j)))
      (seq s k) (w ++ mid ++ r)
    = w ++ ((fun j : nat => Z.land (f (Z.of_nat j)) 255) <$> seq s k) ++ r.
Proof.
  induction k as [|k IH]; intros s w mid r Hw Hmid.
  - destruct mid; [reflexivity|discriminate].
  - destruct mid as [|m mid]; [discriminate|].
    simpl. rewrite <- Hw, setByte_app_here.
    change (w ++ Z.land (f (Z.of_nat s)) 255 :: mid ++ r)
      with (w ++ [Z.land (f (Z.of_nat s)) 255] ++ mid ++ r).
    rewrite app_assoc, IH.
    + now rewrite <- app_assoc.
    + rewrite length_app. simpl. lia.
    + simpl in Hmid. lia.
Qed.

(** ** The checksum is the XOR of the bytes it covers *)

Lemma xor_fold_take (buf : list Z) :
  forall (k : nat) (acc : Z),
    (k <= length buf)%nat ->
    fold_left (fun a j => Z.lxor a (getByte buf (Z.of_nat j))) (seq 0 k) acc
    = fold_left Z.lxor (take k buf) acc.
Proof.
  induction k as [|k IH]; intros acc Hk; [reflexivity|].
  rewrite seq_S, fold_left_app, IH by lia. simpl.
  destruct (lookup_lt_is_Some_2 buf k ltac:(lia)) as [x Hx].
  rewrite (take_S_r _ _ _ Hx), fold_left_app, getByte_nat, Hx.
  reflexivity.
Qed.

Lemma computeChecksum_spec (buf : list Z) (n : Z) :
  computeChecksum buf n
  = Z.land (xor_all (take (Z.to_nat (Z.min n (buf_length buf))) buf)) 255.
Proof.
  unfold computeChecksum, xor_all, buf_length.
  set (k := Z.to_nat (Z.min n (Z.of_nat (length buf)))).
  rewrite (for_loop_from_0 _ _ k).
  - rewrite xor_fold_take by lia. reflexivity.
  - lia.
  - intros j Hj. apply andb_true_iff. rewrite !Z.ltb_lt. lia.
  - destruct (decide (k = length buf)) as [->|Hne]; [now left|right].
    apply andb_false_iff. rewrite !Z.ltb_ge. lia.
Qed.

Lemma computeChecksum_prefix (w : list Z) (x : Z) :
  computeChecksum (w ++ [x]) (Z.of_nat (length w)) = Z.land (xor_all w) 255.
Proof.
  rewrite computeChecksum_spec. unfold buf_length. rewrite length_app. simpl.
  replace (Z.to_nat _) with (length w) by lia.
  now rewrite take_app_length.
Qed.

(** ** Writes at the end of the part already written *)

Lemma setByte_at (w : list Z) x r v o :
  o = Z.of_nat (length w) ->
  setByte (w ++ x :: r) o v = (w ++ [low8 v]) ++ r.
Proof. intros ->. rewrite setByte_app_here, <- app_assoc. reflexivity. Qed.

Lemma getByte_at (w : list Z) x r o :
  o = Z.of_nat (length w) -> getByte (w ++ x :: r) o = x.
Proof. intros ->. apply getByte_app_here. Qed.

Lemma setNumber_at (w : list Z) x y r v o :
  o = Z.of_nat (length w) ->
  setNumber_UInt16LE (w ++ x :: y :: r) o v
  = (w ++ [low8 v; low8 (Z.shiftr v 8)]) ++ r.
Proof.
  intros ->. unfold setNumber_UInt16LE.
  replace ((0 <=? _) && (_ <=? _)) with true.
  - rewrite (setByte_at w x (y :: r)) by reflexivity.
    rewrite (setByte_at (w ++ [low8 v]) y r)
      by (rewrite length_app; simpl; lia).
    rewrite <- !app_assoc. reflexivity.
  - symmetry. apply andb_true_iff. rewrite !Z.leb_le.
    unfold buf_length. rewrite length_app. simpl. lia.
Qed.

Lemma writeString_at (w : list Z) z mid r (s : list Z) o :
  o = Z.of_nat (length w) ->
  length mid = length s ->
  writeString (w ++ z :: mid ++ r) o s
  = ((w ++ low8 (str_length s) :: (low8 <$> s)) ++ r, 1 + str_length s).
Proof.
  intros -> Hmid. unfold writeString. f_equal.
  rewrite (setByte_at w z (mid ++ r)) by reflexivity.
  rewrite (for_loop_from_0 _ _ (length s)).
  - rewrite (blit_fold (Z.of_nat (length w) + 1) (charCodeAt s)
               (length s) 0 (w ++ [low8 (str_length s)]) mid r).
    + rewrite <- !app_assoc. simpl. do 2 f_equal.
      rewrite <- (fmap_lookup_seq low8 s). f_equal.
      apply list_fmap_ext. intros i j Hj. unfold charCodeAt, low8.
      now rewrite Nat2Z.id.
    + rewrite length_app. simpl. lia.
    + exact Hmid.
  - lia.
  - intros j Hj. apply andb_true_iff. rewrite !Z.ltb_lt.
    unfold str_length, buf_length.
    rewrite !length_app. simpl. lia.
  - now left.
Qed.

Lemma copyBuffer_at (w mid r src : list Z) o :
  o = Z.of_nat (length w) ->
  length mid = length src ->
  copyBuffer src (w ++ mid ++ r) o = (w ++ (low8 <$> src)) ++ r.
Proof.
  intros -> Hmid. unfold copyBuffer.
  rewrite (for_loop_from_0 _ _ (length src)).
  - rewrite (blit_fold (Z.of_nat (length w)) (getByte src)
               (length src) 0 w mid r) by (trivial; lia).
    rewrite <- app_assoc. do 2 f_equal.
    rewrite <- (fmap_lookup_seq low8 src).
    apply list_fmap_ext. intros i j Hj. unfold low8.
    now rewrite getByte_nat.
  - lia.
  - intros j Hj. apply andb_true_iff. rewrite !Z.ltb_lt.
    unfold buf_length. rewrite !length_app. lia.
  - now left.
Qed.

Lemma computeChecksum_at (w : list Z) x o :
  o = Z.of_nat (length w) ->
  computeChecksum (w ++ [x]) o = low8 (xor_all w).
Proof. intros ->. apply computeChecksum_prefix. Qed.

Lemma low8_idem v : low8 (low8 v) = low8 v.
Proof. unfold low8. rewrite <- Z.land_assoc. reflexivity. Qed.

(** ** The bytes [encodePacket] produces *)

Lemma zero_buffer_layout (ns nd np : nat) :
  createBuffer (1 + 1 + 2 + 1 + Z.of_nat ns + 1 + Z.of_nat nd + 1 + Z.of_nat np + 1)
  = [] ++ 0 :: 0 :: 0 :: 0 :: 0 :: replicate ns 0
       ++ 0 :: replicate nd 0 ++ 0 :: replicate np 0 ++ [0].
Proof.
  unfold createBuffer.
  replace (Z.to_nat _) with (5 + (ns + (1 + (nd + (1 + (np + 1))))))%nat by lia.
  simpl. rewrite replicate_add. simpl. rewrite replicate_add. simpl.
  rewrite replicate_add. reflexivity.
Qed.

Lemma payload_clamp (payload : list Z) :
  (if buf_length payload >? 255 then 255 else buf_length payload)
  = buf_length (take 255 payload).
Proof.
  unfold buf_length. rewrite length_take.
  destruct (Z.gtb_spec (Z.of_nat (length payload)) 255); lia.
Qed.

Lemma slice_prefix (b : list Z) (n : nat) :
  slice b 0 (buf_length (take n b)) = take n b.
Proof.
  unfold slice, buf_length. rewrite length_take.
  replace (_ <? 0) with false by (symmetry; apply Z.ltb_ge; lia).
  replace (Z.min _ 0) with 0 by lia.
  change (drop (Z.to_nat 0) b) with b.
  replace (Z.to_nat _) with (n `min` length b)%nat by lia.
  destruct (Nat.min_spec n (length b)) as [[Hlt ->]|[Hge ->]]; [reflexivity|].
  now rewrite !take_ge by lia.
Qed.

Ltac solve_offset :=
  solve [ reflexivity
        | apply length_replicate
        | unfold str_length, buf_length;
          repeat first [ rewrite length_app | rewrite length_fmap
                       | progress cbn [length] ];
          lia ].

Lemma encodePacket_layout (st : State) (id : Z) (dst payload : list Z) (flags : Z) :
  id <> 0 ->
  encodePacket st id dst payload flags
  = (wire flags id (localId st) dst (take 255 payload), st).
Proof.
  intros Hid. unfold encodePacket.
  rewrite (proj2 (Z.eqb_neq id 0) Hid).
  rewrite payload_clamp, slice_prefix.
  set (src := localId st). set (pl := take 255 payload).
  unfold str_length at 1 2, buf_length at 1.
  rewrite zero_buffer_layout.
  cbv zeta.
  rewrite setByte_at by solve_offset.
  rewrite setByte_at by solve_offset.
  rewrite setNumber_at by solve_offset.
  rewrite writeString_at by solve_offset.
  cbv beta iota zeta.
  rewrite writeString_at by solve_offset.
  cbv beta iota zeta.
  rewrite setByte_at by solve_offset.
  rewrite copyBuffer_at by solve_offset.
  rewrite computeChecksum_at by solve_offset.
  rewrite setByte_at by solve_offset.
  rewrite low8_idem. unfold wire, wire_body.
  rewrite app_nil_r.
  repeat first [ rewrite <- app_assoc | progress cbn [app] ].
  reflexivity.
Qed.

(** ** Reads from a buffer of known layout *)

Lemma getNumber_at (w : list Z) x y r o :
  o = Z.of_nat (length w) ->
  getNumber_UInt16LE (w ++ x :: y :: r) o = Z.lor x (Z.shiftl y 8).
Proof.
  intros ->. unfold getNumber_UInt16LE.
  replace ((0 <=? _) && (_ <=? _)) with true.
  - rewrite (getByte_at w x (y :: r)) by reflexivity.
    change (w ++ x :: y :: r) with (w ++ [x] ++ y :: r).
    rewrite app_assoc, (getByte_at (w ++ [x]) y r)
      by (rewrite length_app; simpl; lia).
    reflexivity.
  - symmetry. apply andb_true_iff. rewrite !Z.leb_le.
    unfold buf_length. rewrite length_app. simpl. lia.
Qed.

Lemma read_fold (g h : Z -> Z) :
  forall (k : nat) (s0 r0 : list Z),
    fold_left
      (fun (a : list Z * list Z) (j : nat) =>
         let '(s, reads) := a in
         (s ++ [g (Z.of_nat j)], reads ++ [h (Z.of_nat j)]))
      (seq 0 k) (s0, r0)
    = (s0 ++ ((fun j : nat => g (Z.of_nat j)) <$> seq 0 k),
       r0 ++ ((fun j : nat => h (Z.of_nat j)) <$> seq 0 k)).
Proof.
  induction k as [|k IH]; intros s0 r0.
  - simpl. now rewrite !app_nil_r.
  - rewrite seq_S, fold_left_app, IH. simpl.
    rewrite !fmap_app, !app_assoc. reflexivity.
Qed.

(** What [readString] returns and loads, for the length it settles on. *)
Lemma readString_traced_eq (buf : list Z) (offset : Z) :
  let len0 := getByte buf offset in
  let len :=
    if offset + 1 + len0 >? buf_length buf
    then Z.max 0 (buf_length buf - (offset + 1))
    else len0 in
  readString_traced buf offset
  = (mkStringField
       ((fun j : nat => getByte buf (offset + 1 + Z.of_nat j))
          <$> seq 0 (Z.to_nat len))
       (1 + len),
     offset :: ((fun j : nat => offset + 1 + Z.of_nat j)
                  <$> seq 0 (Z.to_nat len))).
Proof.
  intros len0 len. unfold readString_traced. fold len0. fold len.
  rewrite (for_loop_from_0 _ _ (Z.to_nat len)).
  - rewrite (read_fold (fun i => getByte buf (offset + 1 + i))
               (fun i => offset + 1 + i)).
    reflexivity.
  - lia.
  - intros j Hj. apply Z.ltb_lt. lia.
  - now left.
Qed.

Lemma readString_at (w : list Z) (s r : list Z) o :
  o = Z.of_nat (length w) ->
  readString (w ++ str_length s :: s ++ r) o
  = mkStringField s (1 + str_length s).
Proof.
  intros ->. unfold readString. rewrite readString_traced_eq. simpl fst.
  rewrite getByte_app_here.
  replace (_ >? _) with false.
  - unfold str_length. rewrite Nat2Z.id. f_equal.
    apply list_eq. intros i. rewrite list_lookup_fmap.
    destruct (decide (i < length s)%nat) as [Hlt|Hge].
    + rewrite lookup_seq_lt by lia. simpl.
      replace (Z.of_nat (length w) + 1 + Z.of_nat i)
        with (Z.of_nat (length w + 1 + i)) by lia.
      rewrite getByte_nat.
      change (w ++ Z.of_nat (length s) :: s ++ r)
        with (w ++ [Z.of_nat (length s)] ++ s ++ r).
      rewrite app_assoc, lookup_app_r by (rewrite length_app; simpl; lia).
      rewrite length_app. simpl.
      replace (length w + 1 + i - (length w + 1))%nat with i by lia.
      rewrite lookup_app_l by lia.
      destruct (lookup_lt_is_Some_2 s i Hlt) as [x Hx]. now rewrite Hx.
    + rewrite lookup_seq_ge by lia. now rewrite lookup_ge_None_2 by lia.
  - symmetry. rewrite Z.gtb_ltb. apply Z.ltb_ge.
    unfold str_length, buf_length. rewrite !length_app. simpl.
    rewrite length_app. lia.
Qed.

Lemma slice_tail (w t : list Z) (o n : Z) :
  o = Z.of_nat (length w) ->
  Z.of_nat (length t) <= n ->
  slice (w ++ t) o n = t.
Proof.
  intros -> Hn. unfold slice, buf_length. rewrite length_app.
  replace (n <? 0) with false by (symmetry; apply Z.ltb_ge; lia).
  replace (Z.to_nat (Z.min _ (Z.of_nat (length w)))) with (length w) by lia.
  rewrite drop_app_length. apply take_ge. lia.
Qed.

(** Decoding a buffer laid out as a frame: every field comes back as it was
    laid out, and the payload comes back with the byte that follows it. *)
Lemma decodePacket_flat (v f lo hi : Z) (src dst pl : list Z) (c : Z) :
  decodePacket
    (v :: f :: lo :: hi :: str_length src :: src
       ++ str_length dst :: dst ++ buf_length pl :: pl ++ [c])
  = mkPacket v f (Z.lor lo (Z.shiftl hi 8)) src dst (pl ++ [c]).
Proof.
  set (B := v :: f :: lo :: hi :: str_length src :: src
              ++ str_length dst :: dst ++ buf_length pl :: pl ++ [c]).
  assert (E0 : getByte B 0 = v) by exact (getByte_at [] v _ 0 eq_refl).
  assert (E1 : getByte B (0 + 1) = f) by exact (getByte_at [v] f _ 1 eq_refl).
  assert (E2 : getNumber_UInt16LE B (0 + 1 + 1) = Z.lor lo (Z.shiftl hi 8))
    by exact (getNumber_at [v; f] lo hi _ 2 eq_refl).
  assert (E3 : readString B (0 + 1 + 1 + 2)
               = mkStringField src (1 + str_length src))
    by exact (readString_at [v; f; lo; hi] src _ 4 eq_refl).
  assert (E4 : readString B (0 + 1 + 1 + 2 + (1 + str_length src))
               = mkStringField dst (1 + str_length dst)).
  { apply (readString_at ([v; f; lo; hi; str_length src] ++ src) dst).
    unfold str_length. rewrite length_app. simpl. lia. }
  assert (E5 : getByte B (0 + 1 + 1 + 2 + (1 + str_length src)
                          + (1 + str_length dst)) = buf_length pl).
  { replace B with
      (([v; f; lo; hi; str_length src] ++ src ++ str_length dst :: dst)
         ++ buf_length pl :: pl ++ [c]).
    - apply getByte_at. unfold str_length. rewrite !length_app. simpl. lia.
    - unfold B. repeat first [ rewrite <- app_assoc | progress cbn [app] ].
      reflexivity. }
  assert (EL : buf_length B
               = 0 + 1 + 1 + 2 + (1 + str_length src) + (1 + str_length dst)
                 + 1 + buf_length pl + 1).
  { unfold B, buf_length, str_length. cbn [length].
    repeat first [ rewrite length_app | progress cbn [length] ]. lia. }
  assert (E6 : forall n, buf_length pl + 1 <= n ->
               slice B (0 + 1 + 1 + 2 + (1 + str_length src)
                        + (1 + str_length dst) + 1) n = pl ++ [c]).
  { intros n Hn. replace B with
      (([v; f; lo; hi; str_length src] ++ src ++ str_length dst :: dst
          ++ [buf_length pl]) ++ pl ++ [c]).
    - apply slice_tail.
      + unfold str_length. rewrite !length_app. simpl. rewrite length_app.
        simpl. lia.
      + unfold buf_length in Hn. rewrite length_app. simpl. lia.
    - unfold B. repeat first [ rewrite <- app_assoc | progress cbn [app] ].
      reflexivity. }
  unfold decodePacket. cbv zeta.
  rewrite E0, E1, E2, E3. cbn [size value].
  rewrite E4. cbn [size value].
  rewrite E5, EL.
  replace (_ >? _) with false by (symmetry; rewrite Z.gtb_ltb; apply Z.ltb_ge; lia).
  rewrite E6; [reflexivity|].
  unfold str_length, buf_length. lia.
Qed.

(** ** Bytes *)

Lemma is_byte_spec v : is_byte v = true <-> 0 <= v < 256.
Proof. unfold is_byte. rewrite andb_true_iff, Z.leb_le, Z.ltb_lt. tauto. Qed.

Lemma low8_mod v : low8 v = v mod 256.
Proof. unfold low8. change 255 with (Z.ones 8). now rewrite Z.land_ones by lia. Qed.

Lemma low8_byte v : is_byte v = true -> low8 v = v.
Proof. rewrite is_byte_spec, low8_mod. intros H. now apply Z.mod_small. Qed.

Lemma is_byte_low8 v : is_byte (low8 v) = true.
Proof. rewrite is_byte_spec, low8_mod. apply Z.mod_pos_bound. lia. Qed.

Lemma low8_lxor a b : low8 (Z.lxor a b) = Z.lxor (low8 a) (low8 b).
Proof.
  unfold low8. apply Z.bits_inj'. intros n Hn.
  rewrite !Z.lxor_spec, !Z.land_spec, !Z.lxor_spec.
  now destruct (Z.testbit a n), (Z.testbit b n), (Z.testbit 255 n).
Qed.

Lemma is_byte_lxor a b :
  is_byte a = true -> is_byte b = true -> is_byte (Z.lxor a b) = true.
Proof.
  intros Ha Hb. rewrite <- (low8_byte a Ha), <- (low8_byte b Hb), <- low8_lxor.
  apply is_byte_low8.
Qed.

Lemma fmap_low8_bytes (l : list Z) : bytes l -> low8 <$> l = l.
Proof.
  induction 1 as [|x l Hx Hl IH]; [reflexivity|].
  now rewrite fmap_cons, (low8_byte x Hx), IH.
Qed.

Lemma is_byte_fold_lxor (l : list Z) :
  bytes l -> forall acc, is_byte acc = true ->
  is_byte (fold_left Z.lxor l acc) = true.
Proof.
  induction 1 as [|x l Hx Hl IH]; intros acc Hacc; [exact Hacc|].
  simpl. apply IH. now apply is_byte_lxor.
Qed.

Lemma is_byte_xor_all (l : list Z) : bytes l -> is_byte (xor_all l) = true.
Proof. intros H. now apply is_byte_fold_lxor. Qed.

Lemma bytes_take (b : list Z) n : bytes b -> bytes (take n b).
Proof. apply Forall_take. Qed.

Lemma bytes_lookup (b : list Z) (i : nat) x :
  bytes b -> b !! i = Some x -> is_byte x = true.
Proof. intros Hb Hx. exact (proj1 (Forall_lookup _ b) Hb i x Hx). Qed.

Lemma is_byte_getByte (b : list Z) i : bytes b -> is_byte (getByte b i) = true.
Proof.
  intros Hb. unfold getByte. destruct (in_range b i); [|reflexivity].
  destruct (b !! Z.to_nat i) eqn:E; [|reflexivity].
  exact (bytes_lookup b _ _ Hb E).
Qed.

(** A 16-bit number is its two bytes, low byte first. *)
Lemma uint16_bytes (v : Z) :
  Z.lor (v mod 256) (Z.shiftl (v / 256) 8) = v.
Proof.
  change 256 with (2 ^ 8). rewrite <- Z.shiftr_div_pow2 by lia.
  apply Z.bits_inj'. intros n Hn. rewrite Z.lor_spec.
  destruct (Z.lt_ge_cases n 8) as [Hlt|Hge].
  - rewrite Z.mod_pow2_bits_low, Z.shiftl_spec_low by lia.
    apply orb_false_r.
  - rewrite Z.mod_pow2_bits_high, Z.shiftl_spec, Z.shiftr_spec by lia.
    simpl. f_equal. lia.
Qed.

Lemma uint16_low (v : Z) : low8 v = v mod 256.
Proof. apply low8_mod. Qed.

Lemma uint16_high (v : Z) : 0 <= v < 65536 -> low8 (Z.shiftr v 8) = v / 256.
Proof.
  intros Hv. rewrite low8_mod, Z.shiftr_div_pow2 by lia.
  change (2 ^ 8) with 256. apply Z.mod_small.
  split; [apply Z.div_pos; lia | apply Z.div_lt_upper_bound; lia].
Qed.

(** ** The encoder lays the frame out as the protocol prescribes *)

Lemma low8_length (l : list Z) :
  (length l <= 255)%nat -> low8 (Z.of_nat (length l)) = Z.of_nat (length l).
Proof. intros H. apply low8_byte, is_byte_spec. lia. Qed.

Lemma bytes_frame_body flags id src dst pl :
  is_byte flags = true -> 0 <= id < 65536 ->
  short_bytes src -> short_bytes dst -> short_bytes pl ->
  bytes (frame_body flags id src dst pl).
Proof.
  intros Hf Hid [Hs Hsl] [Hd Hdl] [Hp Hpl]. unfold frame_body, bytes.
  repeat first [ apply Forall_app; split | apply Forall_cons; split
               | apply Forall_nil ];
    try assumption; try reflexivity; apply is_byte_spec;
    unfold str_length, buf_length; try lia.
  - apply Z.mod_pos_bound. lia.
  - split; [apply Z.div_pos; lia | apply Z.div_lt_upper_bound; lia].
Qed.

Lemma wire_frame flags id src dst pl :
  is_byte flags = true -> 0 <= id < 65536 ->
  short_bytes src -> short_bytes dst -> short_bytes pl ->
  wire flags id src dst pl = frame flags id src dst pl.
Proof.
  intros Hf Hid Hs Hd Hp.
  assert (Hb : wire_body flags id src dst pl = frame_body flags id src dst pl).
  { destruct Hs as [Hs Hsl], Hd as [Hd Hdl], Hp as [Hp Hpl].
    unfold wire_body, frame_body, str_length, buf_length.
    rewrite !fmap_low8_bytes, !low8_length, (low8_byte flags),
      uint16_low, uint16_high by assumption.
    reflexivity. }
  unfold wire, frame. rewrite Hb. do 2 f_equal.
  apply low8_byte, is_byte_xor_all. now apply bytes_frame_body.
Qed.

Lemma frame_flat flags id src dst pl :
  frame flags id src dst pl
  = PROTOCOL_VERSION :: flags :: id mod 256 :: id / 256
      :: str_length src :: src ++ str_length dst :: dst
      ++ buf_length pl :: pl ++ [xor_all (frame_body flags id src dst pl)].
Proof.
  unfold frame. generalize (xor_all (frame_body flags id src dst pl)).
  intros c. unfold frame_body.
  repeat first [ rewrite <- app_assoc | progress cbn [app] ]. reflexivity.
Qed.

Lemma decodePacket_frame flags id src dst pl :
  decodePacket (frame flags id src dst pl)
  = mkPacket PROTOCOL_VERSION flags id src dst
      (pl ++ [xor_all (frame_body flags id src dst pl)]).
Proof. rewrite frame_flat, decodePacket_flat, uint16_bytes. reflexivity. Qed.

(** ** Identifiers drawn from the random source *)

Lemma randint_range lo hi st :
  lo <= hi -> lo <= fst (randint lo hi st) <= hi.
Proof.
  intros H. unfold randint. destruct (entropy st) as [|r rest]; simpl; [lia|].
  pose proof (Z.mod_pos_bound r (hi - lo + 1)). lia.
Qed.

Lemma generatePacketId_range st : 1 <= fst (generatePacketId st) <= 65535.
Proof. apply randint_range. lia. Qed.

Lemma generatePacketId_state st :
  let st' := snd (generatePacketId st) in
  localId st' = localId st /\ receiveHandler st' = receiveHandler st
  /\ pendingAcks st' = pendingAcks st.
Proof.
  unfold generatePacketId, randint. now destruct (entropy st).
Qed.

Lemma encodePacket_snd st id dst pl fl :
  snd (encodePacket st id dst pl fl)
  = if id =? 0 then snd (generatePacketId st) else st.
Proof.
  unfold encodePacket, writeString.
  destruct (id =? 0); [destruct (generatePacketId st)|]; reflexivity.
Qed.

(** ** Inbound frames *)

Lemma computeChecksum_all_but_last (buf : list Z) :
  bytes buf ->
  computeChecksum buf (buf_length buf - 1)
  = xor_all (take (length buf - 1) buf).
Proof.
  intros Hb. rewrite computeChecksum_spec. unfold buf_length.
  replace (Z.to_nat _) with (length buf - 1)%nat by lia.
  apply low8_byte, is_byte_xor_all, bytes_take, Hb.
Qed.

Lemma checksum_test (buf : list Z) :
  bytes buf ->
  (computeChecksum buf (buf_length buf - 1) =? getByte buf (buf_length buf - 1))
  = true <-> checksum_valid buf.
Proof.
  intros Hb. rewrite computeChecksum_all_but_last by exact Hb.
  unfold checksum_valid. rewrite Z.eqb_eq. split; congruence.
Qed.

Lemma valid_frame_guards (buf : list Z) :
  valid_frame buf ->
  (buf_length buf <? 6) = false
  /\ negb (computeChecksum buf (buf_length buf - 1)
           =? getByte buf (buf_length buf - 1)) = false.
Proof.
  intros (Hb & Hl & Hc). split; [apply Z.ltb_ge; lia|].
  apply negb_false_iff. now apply checksum_test.
Qed.

(** ** The pending-ack list *)

Lemma indexOf_from_spec (x : Z) : forall (l : list Z) (i : Z),
  0 <= i ->
  (In x l /\ i <= indexOf_from l x i
   /\ removeAt l (indexOf_from l x i - i) = remove_first x l)
  \/ (~ In x l /\ indexOf_from l x i = -1 /\ remove_first x l = l).
Proof.
  induction l as [|y t IH]; intros i Hi.
  - right. auto.
  - simpl. destruct (Z.eqb_spec y x) as [->|Hne].
    + left. split; [now left|]. split; [lia|].
      now rewrite Z.sub_diag.
    + destruct (IH (i + 1) ltac:(lia)) as [(Hin & Hle & Hrm)|(Hnin & Hidx & Hrm)].
      * left. split; [now right|]. split; [lia|].
        rewrite <- Hrm. unfold removeAt.
        replace (Z.to_nat (indexOf_from t x (i + 1) - i))
          with (S (Z.to_nat (indexOf_from t x (i + 1) - (i + 1)))) by lia.
        reflexivity.
      * right. split; [intros [E|E]; [congruence|contradiction]|].
        split; [exact Hidx | now rewrite Hrm].
Qed.

Lemma resolve_spec (l : list Z) (x : Z) :
  (if indexOf l x >=? 0 then removeAt l (indexOf l x) else l)
  = remove_first x l.
Proof.
  unfold indexOf.
  destruct (indexOf_from_spec x l 0 ltac:(lia)) as [(_ & Hle & Hrm)|(_ & Hidx & Hrm)].
  - rewrite Z.sub_0_r in Hrm. rewrite Hrm.
    now replace (_ >=? 0) with true by (symmetry; apply Z.geb_le; lia).
  - now rewrite Hidx, Hrm.
Qed.

Lemma remove_first_absent (x : Z) (l : list Z) : ~ In x l -> remove_first x l = l.
Proof.
  intros H. destruct (indexOf_from_spec x l 0 ltac:(lia)) as [(Hin & _)|(_ & _ & E)];
    [contradiction | exact E].
Qed.

Lemma set_pendingAcks_same st : set_pendingAcks st (pendingAcks st) = st.
Proof. now destruct st. Qed.

Lemma string_eqb_eq (a b : list Z) : string_eqb a b = true <-> a = b.
Proof.
  revert b. induction a as [|x a IH]; intros [|y b]; simpl;
    try (split; [discriminate | discriminate]); [tauto|].
  rewrite andb_true_iff, Z.eqb_eq, IH. split; [intros [-> ->]|intros [= -> ->]]; auto.
Qed.

Lemma encodePacket_state st id dst pl fl :
  let st' := snd (encodePacket st id dst pl fl) in
  localId st' = localId st /\ receiveHandler st' = receiveHandler st
  /\ pendingAcks st' = pendingAcks st.
Proof.
  cbv zeta. rewrite encodePacket_snd.
  destruct (id =? 0); [apply generatePacketId_state | auto].
Qed.

Lemma addressed_here_test (st : State) (p : Packet) :
  string_eqb (destination p) (localId st)
  || string_eqb (destination p) [42]
  || string_eqb (destination p) [] = true
  <-> addressed_here st p.
Proof.
  unfold addressed_here. rewrite !orb_true_iff, !string_eqb_eq. tauto.
Qed.

(** * The properties *)

(** C4. An inbound byte sequence that is absent, shorter than six bytes, or
    whose last byte is not the XOR of the bytes before it, has no effect:
    the state (pending-ack list included) is unchanged, and nothing is sent
    and no handler is called. *)
Theorem dispatcher_drops_invalid (st : State) (inbound : option (list Z)) :
  (inbound = None
   \/ exists buf, inbound = Some buf
        /\ (buf_length buf < 6 \/ (bytes buf /\ ~ checksum_valid buf))) ->
  onReceivedBuffer st inbound = (st, []).
Proof.
  intros [->|(buf & -> & Hbad)]; [reflexivity|].
  unfold onReceivedBuffer.
  destruct (Z.ltb_spec (buf_length buf) 6) as [Hshort|Hlong]; [reflexivity|].
  destruct Hbad as [Hshort|[Hb Hc]]; [lia|].
  destruct (computeChecksum buf (buf_length buf - 1)
            =? getByte buf (buf_length buf - 1)) eqn:E; [|reflexivity].
  apply (checksum_test buf Hb) in E. contradiction.
Qed.

(** C6. A valid inbound frame with IS_ACK set removes the first occurrence of
    its id from the pending-ack list, leaves the list as it is when the id
    is not in it, and neither calls the handler nor sends anything. *)
Theorem ack_frame_resolves_pending (st : State) (buf : list Z) :
  valid_frame buf ->
  Z.land (flags (decodePacket buf)) FLAG_IS_ACK <> 0 ->
  onReceivedBuffer st (Some buf)
  = (set_pendingAcks st
       (remove_first (id (decodePacket buf)) (pendingAcks st)), [])
  /\ (~ In (id (decodePacket buf)) (pendingAcks st) ->
      onReceivedBuffer st (Some buf) = (st, []))
  /\ handler_calls (snd (onReceivedBuffer st (Some buf))) = [].
Proof.
  intros Hv Hack.
  assert (E : onReceivedBuffer st (Some buf)
              = (set_pendingAcks st
                   (remove_first (id (decodePacket buf)) (pendingAcks st)), [])).
  { unfold onReceivedBuffer.
    destruct (valid_frame_guards buf Hv) as [-> ->].
    rewrite (proj2 (Z.eqb_neq _ 0) Hack). cbn [negb].
    rewrite <- resolve_spec.
    destruct (indexOf (pendingAcks st) (id (decodePacket buf)) >=? 0);
      [reflexivity | now rewrite set_pendingAcks_same]. }
  split; [exact E|]. split.
  - intros Hnin. rewrite E, remove_first_absent by exact Hnin.
    now rewrite set_pendingAcks_same.
  - now rewrite E.
Qed.

(** C3. On a valid inbound frame that is not an ack, with a handler
    registered, the handler is called (once, with the decoded packet) when
    the destination is the local identity, "*" or the empty string, and is
    not called for any other destination. *)
Theorem handler_called_iff_addressed (st : State) (buf : list Z) (h : Handler) :
  valid_frame buf ->
  Z.land (flags (decodePacket buf)) FLAG_IS_ACK = 0 ->
  receiveHandler st = Some h ->
  (addressed_here st (decodePacket buf) ->
   handler_calls (snd (onReceivedBuffer st (Some buf)))
   = [(h, decodePacket buf)])
  /\ (~ addressed_here st (decodePacket buf) ->
      handler_calls (snd (onReceivedBuffer st (Some buf))) = []).
Proof.
  intros Hv Hack Hh. unfold onReceivedBuffer.
  destruct (valid_frame_guards buf Hv) as [-> ->].
  rewrite Hack. cbn [Z.eqb negb].
  set (pkt := decodePacket buf).
  assert (Hst : exists st1 sent,
    (if negb (Z.land (flags pkt) FLAG_ACK_REQUIRED =? 0)
     then let '(ack, st2) :=
            encodePacket st (id pkt) (source pkt) (createBuffer 0) FLAG_IS_ACK in
          (st2, [RadioSend ack])
     else (st, [])) = (st1, sent)
    /\ localId st1 = localId st /\ receiveHandler st1 = Some h
    /\ handler_calls sent = []).
  { destruct (negb _).
    - pose proof (encodePacket_state st (id pkt) (source pkt)
                    (createBuffer 0) FLAG_IS_ACK) as Hs.
      destruct (encodePacket st (id pkt) (source pkt) (createBuffer 0)
                  FLAG_IS_ACK) as [ack st2].
      cbn [snd] in Hs. destruct Hs as (Hl & Hr & _).
      exists st2, [RadioSend ack]. rewrite Hr. auto.
    - exists st, []. auto. }
  destruct Hst as (st1 & sent & -> & Hl & Hr & Hs). rewrite Hr.
  pose proof (addressed_here_test st1 pkt) as Ht.
  assert (Ha : addressed_here st1 pkt <-> addressed_here st pkt).
  { unfold addressed_here. now rewrite Hl. }
  destruct (string_eqb (destination pkt) (localId st1)
            || string_eqb (destination pkt) [42]
            || string_eqb (destination pkt) []) eqn:E; cbn [snd].
  - split; [intros _|intros Hn; exfalso; apply Hn, Ha, Ht; reflexivity].
    unfold handler_calls in *. rewrite omap_app, Hs. reflexivity.
  - split; [intros Hy; apply Ha, Ht in Hy; discriminate | intros _; exact Hs].
Qed.

Lemma getNumber_range (buf : list Z) (o : Z) :
  bytes buf -> 0 <= getNumber_UInt16LE buf o < 65536.
Proof.
  intros Hb. unfold getNumber_UInt16LE. destruct (_ && _); [|lia].
  pose proof (proj1 (is_byte_spec _) (is_byte_getByte buf o Hb)) as Ha.
  pose proof (proj1 (is_byte_spec _) (is_byte_getByte buf (o + 1) Hb)) as Hc.
  set (a := getByte buf o) in *. set (c := getByte buf (o + 1)) in *.
  assert (E : Z.lor a (Z.shiftl c 8) = a + 256 * c).
  { rewrite <- (uint16_bytes (a + 256 * c)). f_equal.
    - symmetry. rewrite (Z.mul_comm 256 c), Z.mod_add by lia.
      now apply Z.mod_small.
    - f_equal. rewrite (Z.mul_comm 256 c), Z.div_add by lia.
      rewrite (Z.div_small a) by lia. lia. }
  rewrite E. lia.
Qed.

Lemma readString_value_short (buf : list Z) (o : Z) :
  bytes buf -> short_bytes (value (readString buf o)).
Proof.
  intros Hb. unfold readString. rewrite readString_traced_eq. cbn [fst value].
  split.
  - apply Forall_fmap, Forall_forall. intros j _. simpl.
    now apply is_byte_getByte.
  - rewrite length_fmap, length_seq.
    pose proof (proj1 (is_byte_spec _) (is_byte_getByte buf o Hb)).
    destruct (_ >? _) eqn:E; [|lia].
    rewrite Z.gtb_ltb in E. apply Z.ltb_lt in E. lia.
Qed.

Lemma decodePacket_id (buf : list Z) :
  id (decodePacket buf) = getNumber_UInt16LE buf 2.
Proof. reflexivity. Qed.

Lemma decodePacket_source (buf : list Z) :
  source (decodePacket buf) = value (readString buf 4).
Proof. reflexivity. Qed.

(** C5 (amended). A valid inbound frame with ACK_REQUIRED set, IS_ACK clear
    and a nonzero id makes the dispatcher hand exactly one frame to the
    radio: the frame of an acknowledgment with flags IS_ACK, the id of the
    received packet, the local identity as source, the source of the
    received packet as destination and no payload.  The destination of the
    received frame plays no part. *)
Theorem ack_reply_for_nonzero_id (st : State) (buf : list Z) :
  valid_frame buf ->
  short_bytes (localId st) ->
  Z.land (flags (decodePacket buf)) FLAG_IS_ACK = 0 ->
  Z.land (flags (decodePacket buf)) FLAG_ACK_REQUIRED <> 0 ->
  id (decodePacket buf) <> 0 ->
  let ack :=
    frame FLAG_IS_ACK (id (decodePacket buf)) (localId st)
      (source (decodePacket buf)) [] in
  radio_sends (snd (onReceivedBuffer st (Some buf))) = [ack]
  /\ id (decodePacket ack) = id (decodePacket buf)
  /\ flags (decodePacket ack) = FLAG_IS_ACK
  /\ destination (decodePacket ack) = source (decodePacket buf)
  /\ source (decodePacket ack) = localId st.
Proof.
  intros Hv Hid Hack Hreq Hnz ack. split.
  - unfold onReceivedBuffer.
    destruct (valid_frame_guards buf Hv) as [-> ->].
    rewrite Hack, (proj2 (Z.eqb_neq _ 0) Hreq). cbn [Z.eqb negb].
    rewrite encodePacket_layout by exact Hnz.
    change (take 255 (createBuffer 0)) with (@nil Z).
    destruct Hv as (Hb & _ & _).
    rewrite wire_frame.
    + fold ack. destruct (receiveHandler st); [|reflexivity].
      destruct (_ || _); reflexivity.
    + reflexivity.
    + rewrite decodePacket_id. now apply getNumber_range.
    + exact Hid.
    + rewrite decodePacket_source. now apply readString_value_short.
    + split; [constructor | simpl; lia].
  - unfold ack. rewrite decodePacket_frame. cbn. auto.
Qed.

Lemma wire_id fl i src dst pl :
  0 <= i < 65536 ->
  id (decodePacket (wire fl i src dst pl)) = i.
Proof.
  intros Hid. rewrite decodePacket_id.
  transitivity (Z.lor (low8 i) (Z.shiftl (low8 (Z.shiftr i 8)) 8)).
  - exact (getNumber_at [PROTOCOL_VERSION; low8 fl] _ _ _ 2 eq_refl).
  - rewrite uint16_low, uint16_high by exact Hid. apply uint16_bytes.
Qed.

(** C2. When [sendPacket] is called with ACK_REQUIRED set, the id it appends
    to the pending-ack list is the id a receiver reads from the frame handed
    to the radio; that id is in [1, 65535], and it is the caller's id when
    that is not the sentinel 0. *)
Theorem sendPacket_tracks_wire_id (st : State) (i : Z) (pl dst : list Z) (fl : Z) :
  0 <= i <= 65535 ->
  Z.land fl FLAG_ACK_REQUIRED <> 0 ->
  exists (wid : Z) (sent : list Z) (st' : State),
    sendPacket st i pl dst fl = (st', [RadioSend sent])
    /\ id (decodePacket sent) = wid
    /\ pendingAcks st' = pendingAcks st ++ [wid]
    /\ 1 <= wid <= 65535
    /\ (i <> 0 -> wid = i).
Proof.
  intros Hi Hreq. unfold sendPacket.
  rewrite (proj2 (Z.eqb_neq _ 0) Hreq). cbn [negb].
  destruct (Z.eqb_spec i 0) as [->|Hnz].
  - pose proof (generatePacketId_range st) as Hr.
    pose proof (generatePacketId_state st) as (_ & _ & Hp).
    destruct (generatePacketId st) as [wid st1]. cbn [fst snd] in *.
    rewrite encodePacket_layout by lia.
    eexists wid, _, _. split; [reflexivity|].
    split; [apply wire_id; lia|]. split; [cbn; now rewrite Hp|].
    split; [exact Hr | intros H; now contradiction H].
  - rewrite encodePacket_layout by exact Hnz.
    eexists i, _, _. split; [reflexivity|].
    split; [apply wire_id; lia|]. split; [reflexivity|]. split; [lia|auto].
Qed.

(** C9. For an offset inside the buffer, every index [readString] loads from
    is inside the buffer, also when the length byte asks for more: it reads
    at most (buffer length - offset - 1) characters, one load each. *)
Theorem readString_stays_in_buffer (buf : list Z) (offset : Z) :
  0 <= offset < buf_length buf ->
  let '(field, reads) := readString_traced buf offset in
  Forall (fun i => 0 <= i < buf_length buf) reads
  /\ str_length (value field) <= buf_length buf - offset - 1
  /\ length reads = S (length (value field)).
Proof.
  intros Ho. rewrite readString_traced_eq. cbn [value].
  set (len := if _ >? _ then _ else _).
  assert (Hlen : len <= buf_length buf - offset - 1).
  { unfold len. destruct (_ >? _) eqn:E; [lia|].
    rewrite Z.gtb_ltb in E. apply Z.ltb_ge in E. lia. }
  split; [|split].
  - constructor; [lia|]. apply Forall_fmap, Forall_forall.
    intros j Hj. apply list_elem_of_In, in_seq in Hj. simpl. lia.
  - unfold str_length. rewrite length_fmap, length_seq. lia.
  - cbn [length]. now rewrite !length_fmap.
Qed.

(** ** Flipping bits under the checksum *)

Lemma fold_lxor_acc (l : list Z) : forall acc,
  fold_left Z.lxor l acc = Z.lxor acc (xor_all l).
Proof.
  unfold xor_all. induction l as [|x l IH]; intros acc; simpl.
  - now rewrite Z.lxor_0_r.
  - rewrite IH, (IH (Z.lxor 0 x)), Z.lxor_0_l, Z.lxor_assoc. reflexivity.
Qed.

Lemma xor_all_cons x (l : list Z) : xor_all (x :: l) = Z.lxor x (xor_all l).
Proof. unfold xor_all at 1. simpl. apply fold_lxor_acc. Qed.

Lemma xor_all_app (a b : list Z) :
  xor_all (a ++ b) = Z.lxor (xor_all a) (xor_all b).
Proof.
  unfold xor_all at 1. rewrite fold_left_app. fold (xor_all a).
  apply fold_lxor_acc.
Qed.

Lemma xor_all_insert (l : list Z) (i : nat) (y x : Z) :
  l !! i = Some y ->
  xor_all (<[i:=x]> l) = Z.lxor (xor_all l) (Z.lxor y x).
Proof.
  intros Hy. pose proof (lookup_lt_Some _ _ _ Hy) as Hlt.
  rewrite <- (take_drop_middle l i y Hy) at 1 2.
  rewrite insert_app_r_alt by (rewrite length_take; lia).
  replace (i - length (take i l))%nat with 0%nat by (rewrite length_take; lia).
  simpl. rewrite !xor_all_app, !xor_all_cons.
  set (a := xor_all (take i l)). set (b := xor_all (drop (S i) l)).
  apply Z.bits_inj'. intros n _. rewrite !Z.lxor_spec.
  now destruct (Z.testbit a n), (Z.testbit b n), (Z.testbit x n), (Z.testbit y n).
Qed.

Lemma is_byte_bit (k : Z) : 0 <= k < 8 -> is_byte (Z.shiftl 1 k) = true.
Proof.
  intros Hk. rewrite Z.shiftl_1_l. apply is_byte_spec.
  split; [apply Z.pow_nonneg; lia|].
  change 256 with (2 ^ 8). apply Z.pow_lt_mono_r; lia.
Qed.

Lemma bytes_setByte (buf : list Z) i v : bytes buf -> bytes (setByte buf i v).
Proof.
  intros Hb. unfold setByte. destruct (in_range buf i); [|exact Hb].
  apply Forall_insert; [exact Hb | apply is_byte_low8].
Qed.

Lemma bytes_flip_bit (buf : list Z) i k : bytes buf -> bytes (flip_bit buf i k).
Proof. apply bytes_setByte. Qed.

Lemma computeChecksum_flip (buf : list Z) (n i k : Z) :
  bytes buf -> 0 <= k < 8 -> 0 <= i < n -> i < buf_length buf ->
  computeChecksum (flip_bit buf i k) n
  = Z.lxor (computeChecksum buf n) (Z.shiftl 1 k).
Proof.
  intros Hb Hk Hi Hlen. rewrite !computeChecksum_spec.
  unfold flip_bit. rewrite buf_length_setByte.
  set (m := Z.to_nat (Z.min n (buf_length buf))).
  unfold setByte. rewrite (proj2 (in_range_spec buf i)) by lia.
  unfold buf_length in *.
  destruct (lookup_lt_is_Some_2 buf (Z.to_nat i) ltac:(lia)) as [y Hy].
  assert (Hg : getByte buf i = y).
  { unfold getByte. rewrite (proj2 (in_range_spec buf i)), Hy;
      [reflexivity | unfold buf_length; lia]. }
  rewrite Hg.
  pose proof (bytes_lookup buf _ _ Hb Hy) as Hyb.
  fold (low8 (Z.lxor y (Z.shiftl 1 k))).
  rewrite (low8_byte (Z.lxor y (Z.shiftl 1 k)))
    by (apply is_byte_lxor; [exact Hyb | now apply is_byte_bit]).
  rewrite take_insert_lt by (unfold m; lia).
  rewrite (xor_all_insert _ _ y)
    by (rewrite lookup_take_lt by (unfold m; lia); exact Hy).
  rewrite <- (Z.lxor_assoc y y), Z.lxor_nilpotent, Z.lxor_0_l.
  fold (low8 (Z.lxor (xor_all (take m buf)) (Z.shiftl 1 k))).
  rewrite low8_lxor, (low8_byte (Z.shiftl 1 k)) by now apply is_byte_bit.
  reflexivity.
Qed.

(** C10. The checksum is a parity per bit position: flipping one bit of a
    byte in the checked range changes it, and flipping the same bit position
    in two different bytes of the checked range leaves it unchanged. *)
Theorem checksum_bit_parity (buf : list Z) (n i j k : Z) :
  bytes buf -> 0 <= k < 8 ->
  0 <= i < n -> i < buf_length buf ->
  computeChecksum (flip_bit buf i k) n <> computeChecksum buf n
  /\ (0 <= j < n -> j < buf_length buf -> j <> i ->
      computeChecksum (flip_bit (flip_bit buf i k) j k) n
      = computeChecksum buf n).
Proof.
  intros Hb Hk Hi Hil. split.
  - rewrite computeChecksum_flip by assumption. intros E.
    apply (f_equal (Z.lxor (computeChecksum buf n))) in E.
    rewrite <- Z.lxor_assoc, Z.lxor_nilpotent, Z.lxor_0_l in E.
    rewrite Z.shiftl_1_l in E.
    pose proof (Z.pow_pos_nonneg 2 k). lia.
  - intros Hj Hjl Hne.
    rewrite computeChecksum_flip; try assumption.
    + rewrite computeChecksum_flip by assumption.
      rewrite Z.lxor_assoc, Z.lxor_nilpotent. apply Z.lxor_0_r.
    + now apply bytes_flip_bit.
    + unfold flip_bit. now rewrite buf_length_setByte.
Qed.

(** ** Decoding what was encoded *)

(** The encoder writes the frame of the protocol, with the payload cut to
    its first 255 bytes. *)
Lemma encodePacket_frame (st : State) (i : Z) (dst pl : list Z) (fl : Z) :
  1 <= i <= 65535 -> is_byte fl = true ->
  short_bytes (localId st) -> short_bytes dst -> bytes pl ->
  fst (encodePacket st i dst pl fl)
  = frame fl i (localId st) dst (take 255 pl).
Proof.
  intros Hi Hf Hs Hd Hp.
  rewrite encodePacket_layout by lia. cbn [fst].
  apply wire_frame; try assumption; try lia.
  split; [now apply bytes_take | rewrite length_take; lia].
Qed.

(** For a nonzero 16-bit id, a flags byte, a local identity and a
    destination of at most 255 byte-valued characters and a payload of bytes,
    decoding the encoded frame gives back the id, the flags, the local
    identity as source and the destination; the payload comes back cut to
    its first 255 bytes and followed by the checksum byte of the frame,
    because the decoder passes its end index to [slice], which takes a
    length. *)
Lemma decode_encode (st : State) (i : Z) (dst pl : list Z) (fl : Z) :
  1 <= i <= 65535 -> is_byte fl = true ->
  short_bytes (localId st) -> short_bytes dst -> bytes pl ->
  decodePacket (fst (encodePacket st i dst pl fl))
  = mkPacket PROTOCOL_VERSION fl i (localId st) dst
      (take 255 pl
       ++ [xor_all (frame_body fl i (localId st) dst (take 255 pl))]).
Proof.
  intros Hi Hf Hs Hd Hp.
  rewrite encodePacket_frame by assumption. apply decodePacket_frame.
Qed.

(** The bytes of a frame from the decoder's payload offset up to its end
    index are the payload. *)
Lemma payload_between_offset_and_end fl i (src dst pl : list Z) :
  let buf := frame fl i src dst pl in
  let offset := 4 + (1 + str_length src) + (1 + str_length dst) + 1 in
  let end_ := offset + buf_length pl in
  end_ = buf_length buf - 1
  /\ take (Z.to_nat (end_ - offset)) (drop (Z.to_nat offset) buf) = pl.
Proof.
  cbv zeta. rewrite frame_flat.
  replace (PROTOCOL_VERSION :: fl :: i mod 256 :: i / 256 :: str_length src
             :: src ++ str_length dst :: dst ++ buf_length pl :: pl
             ++ [xor_all (frame_body fl i src dst pl)])
    with (([PROTOCOL_VERSION; fl; i mod 256; i / 256; str_length src] ++ src
             ++ str_length dst :: dst ++ [buf_length pl])
            ++ pl ++ [xor_all (frame_body fl i src dst pl)])
    by (repeat first [ rewrite <- app_assoc | progress cbn [app] ]; reflexivity).
  set (w := [PROTOCOL_VERSION; fl; i mod 256; i / 256; str_length src] ++ src
              ++ str_length dst :: dst ++ [buf_length pl]).
  assert (Hw : Z.of_nat (length w)
               = 4 + (1 + str_length src) + (1 + str_length dst) + 1).
  { unfold w, str_length. rewrite !length_app. cbn [length].
    rewrite length_app. cbn [length]. lia. }
  split.
  - unfold buf_length. rewrite !length_app. cbn [length]. lia.
  - rewrite <- Hw, Nat2Z.id, drop_app_length.
    replace (Z.to_nat _) with (length pl) by (unfold buf_length; lia).
    apply take_app_length.
Qed.

(** C1. At the scenario of the round trip, id 42 to "RC" with payload [0xFF]
    and flags 0 from the device "7", every field comes back except the
    payload, which comes back as [0xFF; 0xF0], the payload followed by the
    checksum byte. *)
Theorem decode_encode_payload_keeps_checksum :
  decodePacket (fst (encodePacket (mkState [55] None [] []) 42 [82; 67] [255] 0))
  = mkPacket 1 0 42 [55] [82; 67] [255; 240].
Proof. vm_compute. reflexivity. Qed.

(** C7. A payload of 300 bytes is cut to its first 255 bytes in the frame
    (length byte 255), and decoding the frame gives 256 bytes: those 255
    followed by the checksum byte. *)
Theorem decode_truncated_payload_keeps_checksum :
  let pl := (fun j : nat => Z.of_nat j mod 256) <$> seq 0 300 in
  let buf := fst (encodePacket (mkState [55] None [] []) 42 [82; 67] pl 0) in
  getByte buf 9 = 255
  /\ slice buf 10 255 = take 255 pl
  /\ payload (decodePacket buf) = take 255 pl ++ [getByte buf 265]
  /\ length (payload (decodePacket buf)) = 256%nat.
Proof. vm_compute. repeat split. Qed.

(** C8. For a string of 256 characters, [writeString] stores 0 in the length
    byte (256 cut to eight bits), writes all 256 characters and returns 257:
    the string is not cut to 255 characters. *)
Theorem writeString_does_not_truncate :
  let s := replicate 256 97 in
  let '(buf, n) := writeString (createBuffer 258) 0 s in
  getByte buf 0 = 0 /\ slice buf 1 256 = s /\ n = 257.
Proof. vm_compute. repeat split. Qed.

(** The id field of the frame has 16 bits: a number beyond them is cut on
    the wire and recorded as given. *)
Lemma id_beyond_16_bits_is_cut :
  let '(st, evs) := sendPacket (mkState [55] None [] []) 65543 [9] [82; 67] 1 in
  pendingAcks st = [65543]
  /\ (id <$> (decodePacket <$> radio_sends evs)) = [7].
Proof. vm_compute. split; reflexivity. Qed.

(** A destination of 256 characters goes out under the length byte 0 and
    decodes as the empty string. *)
Lemma long_destination_does_not_decode :
  destination
    (decodePacket
       (fst (encodePacket (mkState [55] None [] []) 1 (replicate 256 97) [9] 0)))
  = [].
Proof. vm_compute. reflexivity. Qed.

(** C5, as stated, fails for a frame that carries the id 0: the
    acknowledgment goes out with a freshly drawn id. *)
Lemma ack_reply_id_zero_counterexample :
  let st := mkState [55] (Some 0%nat) [] [4] in
  let buf := [1; 1; 0; 0; 1; 65; 0; 0; 64] in
  valid_frame buf
  /\ short_bytes (localId st)
  /\ Z.land (flags (decodePacket buf)) FLAG_IS_ACK = 0
  /\ Z.land (flags (decodePacket buf)) FLAG_ACK_REQUIRED <> 0
  /\ id (decodePacket buf) = 0
  /\ exists ack,
       radio_sends (snd (onReceivedBuffer st (Some buf))) = [ack]
       /\ id (decodePacket ack) = 5
       /\ id (decodePacket ack) <> id (decodePacket buf).
Proof.
  cbv zeta. split; [|split; [|split; [|split; [|split]]]].
  - split; [repeat constructor | split; [vm_compute; discriminate | reflexivity]].
  - split; [repeat constructor | simpl; lia].
  - reflexivity.
  - vm_compute. discriminate.
  - reflexivity.
  - eexists. split; [vm_compute; reflexivity|].
    split; [reflexivity | vm_compute; discriminate].
Qed.

(** * The properties at concrete inputs *)

(** The ack life cycle: id 7 sent with ACK_REQUIRED is pending; an ack for
    id 8 leaves it pending; the ack for id 7 removes it. *)
Example ack_lifecycle :
  let st0 := mkState [55] None [] [] in
  let st1 := fst (sendPacket st0 7 [9] [82; 67] FLAG_ACK_REQUIRED) in
  let st2 := fst (onReceivedBuffer st1 (Some (frame FLAG_IS_ACK 8 [82; 67] [55] []))) in
  let st3 := fst (onReceivedBuffer st2 (Some (frame FLAG_IS_ACK 7 [82; 67] [55] []))) in
  pendingAcks st1 = [7] /\ pendingAcks st2 = [7] /\ pendingAcks st3 = [].
Proof. vm_compute. repeat split. Qed.

Ltac valid_frame_by_computation :=
  split; [repeat constructor
         | split; [unfold buf_length; simpl; lia | vm_compute; reflexivity]].

Lemma sendPacket_tracks_wire_id_witness :
  let st := mkState [55] None [3] [40] in
  0 <= 0 <= 65535 /\ Z.land 1 FLAG_ACK_REQUIRED <> 0
  /\ exists (wid : Z) (sent : list Z) (st' : State),
       sendPacket st 0 [9] [82; 67] 1 = (st', [RadioSend sent])
       /\ id (decodePacket sent) = wid
       /\ pendingAcks st' = pendingAcks st ++ [wid]
       /\ 1 <= wid <= 65535
       /\ (0 <> 0 -> wid = 0).
Proof.
  cbv zeta.
  assert (H1 : 0 <= 0 <= 65535) by lia.
  assert (H2 : Z.land 1 FLAG_ACK_REQUIRED <> 0) by (vm_compute; discriminate).
  split; [exact H1|]. split; [exact H2|].
  exact (sendPacket_tracks_wire_id (mkState [55] None [3] [40]) 0 [9] [82; 67] 1 H1 H2).
Defined.

Lemma handler_called_iff_addressed_witness :
  let st := mkState [55] (Some 0%nat) [] [] in
  let buf := [1; 0; 42; 0; 1; 65; 1; 55; 0; 93] in
  valid_frame buf
  /\ Z.land (flags (decodePacket buf)) FLAG_IS_ACK = 0
  /\ receiveHandler st = Some 0%nat
  /\ (addressed_here st (decodePacket buf) ->
      handler_calls (snd (onReceivedBuffer st (Some buf)))
      = [(0%nat, decodePacket buf)])
  /\ (~ addressed_here st (decodePacket buf) ->
      handler_calls (snd (onReceivedBuffer st (Some buf))) = []).
Proof.
  cbv zeta.
  assert (Hv : valid_frame [1; 0; 42; 0; 1; 65; 1; 55; 0; 93])
    by valid_frame_by_computation.
  assert (Hf : Z.land (flags (decodePacket [1; 0; 42; 0; 1; 65; 1; 55; 0; 93]))
                 FLAG_IS_ACK = 0) by reflexivity.
  assert (Hh : receiveHandler (mkState [55] (Some 0%nat) [] []) = Some 0%nat)
    by reflexivity.
  split; [exact Hv|]. split; [exact Hf|]. split; [exact Hh|].
  exact (handler_called_iff_addressed _ _ _ Hv Hf Hh).
Defined.

Lemma dispatcher_drops_invalid_witness :
  let st := mkState [55] (Some 0%nat) [7] [] in
  let buf := [1; 0; 42; 0; 1; 65; 1; 55; 0; 94] in
  (bytes buf /\ ~ checksum_valid buf)
  /\ onReceivedBuffer st (Some buf) = (st, []).
Proof.
  cbv zeta.
  assert (H : bytes [1; 0; 42; 0; 1; 65; 1; 55; 0; 94]
              /\ ~ checksum_valid [1; 0; 42; 0; 1; 65; 1; 55; 0; 94]).
  { split; [repeat constructor | vm_compute; discriminate]. }
  split; [exact H|].
  apply dispatcher_drops_invalid. right. eexists. split; [reflexivity|].
  right. exact H.
Defined.

Lemma ack_reply_for_nonzero_id_witness :
  let st := mkState [55] (Some 0%nat) [] [] in
  let buf := [1; 1; 42; 0; 1; 65; 1; 90; 0; 49] in
  valid_frame buf
  /\ short_bytes (localId st)
  /\ Z.land (flags (decodePacket buf)) FLAG_IS_ACK = 0
  /\ Z.land (flags (decodePacket buf)) FLAG_ACK_REQUIRED <> 0
  /\ id (decodePacket buf) <> 0
  /\ radio_sends (snd (onReceivedBuffer st (Some buf)))
     = [frame FLAG_IS_ACK 42 [55] [65] []].
Proof.
  cbv zeta.
  assert (Hv : valid_frame [1; 1; 42; 0; 1; 65; 1; 90; 0; 49])
    by valid_frame_by_computation.
  assert (Hs : short_bytes (localId (mkState [55] (Some 0%nat) [] [])))
    by (split; [repeat constructor | simpl; lia]).
  assert (Hf : Z.land (flags (decodePacket [1; 1; 42; 0; 1; 65; 1; 90; 0; 49]))
                 FLAG_IS_ACK = 0) by reflexivity.
  assert (Hr : Z.land (flags (decodePacket [1; 1; 42; 0; 1; 65; 1; 90; 0; 49]))
                 FLAG_ACK_REQUIRED <> 0) by (vm_compute; discriminate).
  assert (Hi : id (decodePacket [1; 1; 42; 0; 1; 65; 1; 90; 0; 49]) <> 0)
    by (vm_compute; discriminate).
  split; [exact Hv|]. split; [exact Hs|]. split; [exact Hf|].
  split; [exact Hr|]. split; [exact Hi|].
  exact (proj1 (ack_reply_for_nonzero_id _ _ Hv Hs Hf Hr Hi)).
Defined.

Lemma ack_frame_resolves_pending_witness :
  let st := mkState [55] (Some 0%nat) [7; 9; 7] [] in
  let buf := [1; 2; 7; 0; 1; 65; 1; 55; 0; 114] in
  valid_frame buf
  /\ Z.land (flags (decodePacket buf)) FLAG_IS_ACK <> 0
  /\ onReceivedBuffer st (Some buf)
     = (set_pendingAcks st (remove_first 7 [7; 9; 7]), []).
Proof.
  cbv zeta.
  assert (Hv : valid_frame [1; 2; 7; 0; 1; 65; 1; 55; 0; 114])
    by valid_frame_by_computation.
  assert (Hf : Z.land (flags (decodePacket [1; 2; 7; 0; 1; 65; 1; 55; 0; 114]))
                 FLAG_IS_ACK <> 0) by (vm_compute; discriminate).
  split; [exact Hv|]. split; [exact Hf|].
  exact (proj1 (ack_frame_resolves_pending
                  (mkState [55] (Some 0%nat) [7; 9; 7] []) _ Hv Hf)).
Defined.

Lemma readString_stays_in_buffer_witness :
  0 <= 0 < buf_length [200; 65; 66]
  /\ let '(field, reads) := readString_traced [200; 65; 66] 0 in
     Forall (fun i => 0 <= i < buf_length [200; 65; 66]) reads
     /\ str_length (value field) <= buf_length [200; 65; 66] - 0 - 1
     /\ length reads = S (length (value field)).
Proof.
  assert (H : 0 <= 0 < buf_length [200; 65; 66]) by (unfold buf_length; simpl; lia).
  split; [exact H|].
  exact (readString_stays_in_buffer [200; 65; 66] 0 H).
Defined.

Lemma checksum_bit_parity_witness :
  let buf := [1; 2; 3; 4] in
  bytes buf /\ 0 <= 3 < 8 /\ 0 <= 1 < 4 /\ 1 < buf_length buf
  /\ computeChecksum (flip_bit buf 1 3) 4 <> computeChecksum buf 4
  /\ (0 <= 2 < 4 -> 2 < buf_length buf -> 2 <> 1 ->
      computeChecksum (flip_bit (flip_bit buf 1 3) 2 3) 4
      = computeChecksum buf 4).
Proof.
  cbv zeta.
  assert (Hb : bytes [1; 2; 3; 4]) by repeat constructor.
  assert (Hk : 0 <= 3 < 8) by lia.
  assert (Hi : 0 <= 1 < 4) by lia.
  assert (Hl : 1 < buf_length [1; 2; 3; 4]) by (unfold buf_length; simpl; lia).
  split; [exact Hb|]. split; [exact Hk|]. split; [exact Hi|]. split; [exact Hl|].
  exact (checksum_bit_parity [1; 2; 3; 4] 4 1 2 3 Hb Hk Hi Hl).
Defined.

(** * The second copy *)

Lemma second_copy_encodePacket_snd copyTo st i dst pl fl :
  snd (SecondCopy.encodePacket copyTo st i dst pl fl)
  = if i =? 0 then snd (generatePacketId st) else st.
Proof.
  unfold SecondCopy.encodePacket, SecondCopy.writeString.
  destruct (i =? 0); [destruct (generatePacketId st)|]; reflexivity.
Qed.

(** With ACK_REQUIRED set and the sentinel id 0, the second copy records
    the 0 it was given, whatever id its encoder draws for the frame. *)
Lemma second_copy_records_sentinel copyTo (st : State) (pl dst : list Z) (fl : Z) :
  Z.land fl FLAG_ACK_REQUIRED <> 0 ->
  pendingAcks (fst (SecondCopy.sendPacket copyTo st 0 pl dst fl))
  = pendingAcks st ++ [0].
Proof.
  intros Hreq. unfold SecondCopy.sendPacket.
  pose proof (second_copy_encodePacket_snd copyTo st 0 dst pl fl) as Hs.
  destruct (SecondCopy.encodePacket copyTo st 0 dst pl fl) as [pkt st1].
  cbn [snd] in Hs.
  rewrite (proj2 (Z.eqb_neq _ 0) Hreq). cbn [negb fst pendingAcks set_pendingAcks].
  rewrite Hs. change (0 =? 0) with true. cbv iota.
  now destruct (generatePacketId_state st) as (_ & _ & ->).
Qed.

(** The second copy's [readString] follows the length byte past the end of
    the buffer: on the one-byte buffer [3] it loads from indices 1, 2, 3. *)
Lemma second_copy_readString_reads_past_end :
  SecondCopy.readString_traced [3] 0
  = (mkStringField [0; 0; 0] 4, [0; 1; 2; 3]).
Proof. reflexivity. Qed.

(** The second copy has no length test: an empty buffer reaches the handler. *)
Lemma second_copy_delivers_empty_buffer copyTo :
  SecondCopy.onReceivedBuffer copyTo (mkState [55] (Some 0%nat) [7] []) []
  = (mkState [55] (Some 0%nat) [7] [],
     [HandlerCall 0%nat (mkPacket 0 0 0 [] [] [])]).
Proof. reflexivity. Qed.

(** The second copy has no destination test: a frame for "ZZ" reaches the
    handler of the device "7". *)
Lemma second_copy_delivers_any_destination copyTo :
  handler_calls
    (snd (SecondCopy.onReceivedBuffer copyTo (mkState [55] (Some 0%nat) [] [])
            (frame 0 42 [65] [90; 90] [9])))
  = [(0%nat, mkPacket 1 0 42 [65] [90; 90] [9])].
Proof. reflexivity. Qed.

(** On the frame of the round-trip scenario the second copy's decoder,
    which calls [slice] with the payload length, returns the payload alone. *)
Lemma second_copy_decodes_payload :
  SecondCopy.decodePacket [1; 0; 42; 0; 1; 55; 2; 82; 67; 1; 255; 240]
  = mkPacket 1 0 42 [55] [82; 67] [255].
Proof. reflexivity. Qed.

(** * Further properties of the code *)

(** ** Loops, once more *)

Lemma fold_left_ext_in {A B : Type} (f g : A -> B -> A) (l : list B) :
  (forall a b, In b l -> f a b = g a b) ->
  forall a, fold_left f l a = fold_left g l a.
Proof.
  induction l as [|x l IH]; intros H a; [reflexivity|].
  simpl. rewrite (H a x) by now left.
  apply IH. intros a' b Hb. apply H. now right.
Qed.

Lemma append_fold {B : Type} (g : nat -> B) (l : list nat) :
  forall acc, fold_left (fun s j => s ++ [g j]) l acc = acc ++ (g <$> l).
Proof.
  induction l as [|x l IH]; intros acc; simpl.
  - now rewrite app_nil_r.
  - rewrite IH, <- app_assoc. reflexivity.
Qed.

Lemma fmap_lookup_seq_take {B : Type} (g : Z -> B) (l : list Z) (k : nat) :
  (k <= length l)%nat ->
  (fun j : nat => g (default 0 (l !! j))) <$> seq 0 k = g <$> take k l.
Proof.
  intros Hk. rewrite <- (fmap_lookup_seq g (take k l)).
  rewrite length_take, Nat.min_l by exact Hk.
  apply list_eq. intros i. rewrite !list_lookup_fmap.
  destruct (decide (i < k)%nat) as [Hlt|Hge].
  - rewrite lookup_seq_lt by lia. simpl. now rewrite lookup_take_lt by lia.
  - now rewrite lookup_seq_ge by lia.
Qed.

(** ** Strings and buffers (main.ts 248-262) *)

Lemma bufferToString_eq (buf : list Z) : bufferToString buf = buf.
Proof.
  unfold bufferToString. rewrite (for_loop_from_0 _ _ (length buf)).
  - rewrite (append_fold (fun j => getByte buf (Z.of_nat j))). simpl.
    apply list_eq. intros i. rewrite list_lookup_fmap.
    destruct (decide (i < length buf)%nat) as [Hlt|Hge].
    + rewrite lookup_seq_lt by lia. simpl. rewrite getByte_nat.
      destruct (lookup_lt_is_Some_2 buf i Hlt) as [x Hx]. now rewrite Hx.
    + rewrite lookup_seq_ge by lia. now rewrite lookup_ge_None_2 by lia.
  - lia.
  - intros j Hj. apply Z.ltb_lt. unfold buf_length. lia.
  - now left.
Qed.

(** The loop of [stringToBuffer] fills the fresh buffer from its start. *)
Lemma stringToBuffer_fold (s : list Z) :
  stringToBuffer s
  = (fun j : nat => low8 (charCodeAt s (Z.of_nat j))) <$> seq 0 (length s).
Proof.
  unfold stringToBuffer. rewrite (for_loop_from_0 _ _ (length s)).
  - rewrite (fold_left_ext_in _
               (fun b j => setByte b (0 + Z.of_nat j) (charCodeAt s (Z.of_nat j))))
      by reflexivity.
    unfold createBuffer, str_length. rewrite Nat2Z.id.
    pose proof (blit_fold 0 (charCodeAt s) (length s) 0 []
                  (replicate (length s) 0) []) as H.
    rewrite app_nil_r in H. simpl app in H. rewrite H.
    + now rewrite app_nil_r.
    + reflexivity.
    + apply length_replicate.
  - lia.
  - intros j Hj. apply Z.ltb_lt. unfold str_length. lia.
  - now left.
Qed.

(** X2. [stringToBuffer] gives a buffer as long as the string that holds the
    low eight bits of each character code. *)
Theorem stringToBuffer_low8 (s : list Z) :
  stringToBuffer s = low8 <$> s.
Proof.
  rewrite stringToBuffer_fold, <- (fmap_lookup_seq low8 s).
  apply list_fmap_ext. intros i j _. unfold charCodeAt.
  now rewrite Nat2Z.id.
Qed.

(** X1. A string of byte-valued characters survives the trip through a
    buffer: [bufferToString (stringToBuffer s)] is [s]. *)
Theorem bufferToString_stringToBuffer (s : list Z) :
  bytes s -> bufferToString (stringToBuffer s) = s.
Proof.
  intros Hs. rewrite bufferToString_eq, stringToBuffer_fold.
  rewrite <- (fmap_low8_bytes s Hs) at 2.
  rewrite <- (fmap_lookup_seq low8 s).
  apply list_fmap_ext. intros i j _. unfold charCodeAt.
  now rewrite Nat2Z.id.
Qed.

Lemma bufferToString_stringToBuffer_witness :
  bytes [72; 105] /\ bufferToString (stringToBuffer [72; 105]) = [72; 105].
Proof.
  assert (H : bytes [72; 105]) by repeat constructor.
  split; [exact H | exact (bufferToString_stringToBuffer [72; 105] H)].
Defined.

(** X3. A buffer survives the trip through a string:
    [stringToBuffer (bufferToString buf)] is [buf]. *)
Theorem stringToBuffer_bufferToString (buf : list Z) :
  bytes buf -> stringToBuffer (bufferToString buf) = buf.
Proof.
  intros Hb. rewrite bufferToString_eq, stringToBuffer_fold.
  rewrite <- (fmap_low8_bytes buf Hb) at 2.
  rewrite <- (fmap_lookup_seq low8 buf).
  apply list_fmap_ext. intros i j _. unfold charCodeAt.
  now rewrite Nat2Z.id.
Qed.

Lemma stringToBuffer_bufferToString_witness :
  bytes [0; 255; 7] /\ stringToBuffer (bufferToString [0; 255; 7]) = [0; 255; 7].
Proof.
  assert (H : bytes [0; 255; 7]) by repeat constructor.
  split; [exact H | exact (stringToBuffer_bufferToString [0; 255; 7] H)].
Defined.

(** ** Frames the encoder produces (main.ts 133-172) *)

(** Whatever its arguments, the encoder writes the bytes [wire] describes,
    for the id it was given or, for the sentinel 0, for the id it draws. *)
Lemma encodePacket_wire_any (st : State) (i : Z) (dst pl : list Z) (fl : Z) :
  exists wid : Z,
    fst (encodePacket st i dst pl fl)
    = wire fl wid (localId st) dst (take 255 pl)
    /\ wid <> 0
    /\ (i <> 0 -> wid = i)
    /\ (i = 0 -> 1 <= wid <= 65535).
Proof.
  destruct (Z.eq_dec i 0) as [->|Hnz].
  - pose proof (generatePacketId_range st) as Hr.
    pose proof (generatePacketId_state st) as (Hl & _ & _).
    exists (fst (generatePacketId st)).
    split; [|split; [lia|split; [intros H; now contradiction H | intros _; exact Hr]]].
    unfold encodePacket. change (0 =? 0) with true. cbv iota.
    destruct (generatePacketId st) as [wid st1] eqn:E. cbn [fst snd] in *.
    pose proof (encodePacket_layout st1 wid dst pl fl ltac:(lia)) as HL.
    unfold encodePacket in HL.
    rewrite (proj2 (Z.eqb_neq wid 0)) in HL by lia.
    rewrite HL. cbn [fst]. now rewrite Hl.
  - exists i. rewrite encodePacket_layout by exact Hnz.
    split; [reflexivity|]. split; [exact Hnz|]. split; [auto|].
    intros H. contradiction.
Qed.

Lemma bytes_fmap_low8 (l : list Z) : bytes (low8 <$> l).
Proof. apply Forall_fmap, Forall_forall. intros x _. apply is_byte_low8. Qed.

Lemma bytes_wire_body fl i src dst pl : bytes (wire_body fl i src dst pl).
Proof.
  unfold wire_body, bytes.
  repeat first [ apply Forall_app; split | apply Forall_cons; split
               | apply Forall_nil | apply bytes_fmap_low8 | apply is_byte_low8
               | reflexivity ].
Qed.

Lemma length_wire fl i (src dst pl : list Z) :
  buf_length (wire fl i src dst pl)
  = 8 + str_length src + str_length dst + buf_length pl.
Proof.
  unfold wire, wire_body, buf_length, str_length.
  repeat first [ rewrite length_app | rewrite length_fmap
               | progress cbn [length] ].
  lia.
Qed.

Lemma valid_frame_wire fl i src dst pl : valid_frame (wire fl i src dst pl).
Proof.
  split; [|split].
  - unfold wire. apply Forall_app. split; [apply bytes_wire_body|].
    repeat constructor. apply is_byte_low8.
  - rewrite length_wire. unfold str_length, buf_length. lia.
  - unfold checksum_valid, wire, buf_length.
    rewrite length_app. cbn [length].
    replace (Z.of_nat (length (wire_body fl i src dst pl) + 1) - 1)
      with (Z.of_nat (length (wire_body fl i src dst pl))) by lia.
    rewrite getByte_app_here.
    replace (length (wire_body fl i src dst pl) + 1 - 1)%nat
      with (length (wire_body fl i src dst pl)) by lia.
    rewrite take_app_length.
    apply low8_byte, is_byte_xor_all, bytes_wire_body.
Qed.

Lemma wire_flags fl i src dst pl :
  flags (decodePacket (wire fl i src dst pl)) = low8 fl.
Proof. exact (getByte_at [PROTOCOL_VERSION] (low8 fl) _ 1 eq_refl). Qed.

(** X4. The frame [encodePacket] returns has 8 bytes of framing around the
    local identity, the destination and the payload, of which at most 255
    bytes are taken: its length is
    8 + |localId| + |destination| + min(|payload|, 255), for all arguments. *)
Theorem encodePacket_length (st : State) (i : Z) (dst pl : list Z) (fl : Z) :
  buf_length (fst (encodePacket st i dst pl fl))
  = 8 + str_length (localId st) + str_length dst
    + Z.min (buf_length pl) 255.
Proof.
  destruct (encodePacket_wire_any st i dst pl fl) as (wid & -> & _).
  rewrite length_wire. unfold buf_length. rewrite length_take. lia.
Qed.

(** X5. Every frame [encodePacket] returns, whatever its arguments, is a
    sequence of bytes of length at least 6 whose last byte is the XOR of the
    bytes before it: it passes the tests of the dispatcher. *)
Theorem encodePacket_valid_frame (st : State) (i : Z) (dst pl : list Z) (fl : Z) :
  valid_frame (fst (encodePacket st i dst pl fl)).
Proof.
  destruct (encodePacket_wire_any st i dst pl fl) as (wid & -> & _).
  apply valid_frame_wire.
Qed.

(** X6. For an id of 16 bits the id in the frame is never 0: it is the id
    given when that is not 0, and an id of [1, 65535] when it is. *)
Theorem encodePacket_id_never_zero (st : State) (i : Z) (dst pl : list Z) (fl : Z) :
  0 <= i <= 65535 ->
  let wid := id (decodePacket (fst (encodePacket st i dst pl fl))) in
  1 <= wid <= 65535 /\ (i <> 0 -> wid = i).
Proof.
  intros Hi. cbv zeta.
  destruct (encodePacket_wire_any st i dst pl fl) as (wid & -> & Hnz & Hsame & Hgen).
  assert (Hw : 1 <= wid <= 65535).
  { destruct (Z.eq_dec i 0) as [E|E]; [now apply Hgen | rewrite (Hsame E); lia]. }
  rewrite wire_id by lia. split; [exact Hw|]. exact Hsame.
Qed.

Lemma encodePacket_id_never_zero_witness :
  0 <= 0 <= 65535
  /\ let wid := id (decodePacket
                      (fst (encodePacket (mkState [55] None [] [70000]) 0
                              [82; 67] [9] 0))) in
     1 <= wid <= 65535 /\ (0 <> 0 -> wid = 0).
Proof.
  assert (H : 0 <= 0 <= 65535) by lia.
  split; [exact H|].
  exact (encodePacket_id_never_zero (mkState [55] None [] [70000]) 0 [82; 67] [9] 0 H).
Defined.

(** X7. For a nonzero id of 16 bits, a flags byte, a local identity and a
    destination of at most 255 byte-valued characters and a payload of
    bytes, the frame is byte for byte the documented layout: version 1,
    flags, id low byte first, length and bytes of the source, of the
    destination and of the payload cut to 255 bytes, and the XOR of all
    these bytes. *)
Theorem encodePacket_is_documented_frame
    (st : State) (i : Z) (dst pl : list Z) (fl : Z) :
  1 <= i <= 65535 -> is_byte fl = true ->
  short_bytes (localId st) -> short_bytes dst -> bytes pl ->
  fst (encodePacket st i dst pl fl)
  = frame fl i (localId st) dst (take 255 pl).
Proof.
  intros Hi Hf Hs Hd Hp.
  destruct (encodePacket_wire_any st i dst pl fl) as (wid & -> & _ & Hsame & _).
  rewrite (Hsame ltac:(lia)).
  apply wire_frame; try assumption; try lia.
  split; [now apply bytes_take | rewrite length_take; lia].
Qed.

Lemma encodePacket_is_documented_frame_witness :
  let st := mkState [55] None [] [] in
  1 <= 42 <= 65535 /\ is_byte 0 = true
  /\ short_bytes (localId st) /\ short_bytes [82; 67] /\ bytes [255]
  /\ fst (encodePacket st 42 [82; 67] [255] 0)
     = frame 0 42 [55] [82; 67] (take 255 [255]).
Proof.
  cbv zeta.
  assert (H1 : 1 <= 42 <= 65535) by lia.
  assert (H2 : is_byte 0 = true) by reflexivity.
  assert (H3 : short_bytes (localId (mkState [55] None [] [])))
    by (split; [repeat constructor | simpl; lia]).
  assert (H4 : short_bytes [82; 67]) by (split; [repeat constructor | simpl; lia]).
  assert (H5 : bytes [255]) by repeat constructor.
  split; [exact H1|]. split; [exact H2|]. split; [exact H3|].
  split; [exact H4|]. split; [exact H5|].
  exact (encodePacket_is_documented_frame _ 42 [82; 67] [255] 0 H1 H2 H3 H4 H5).
Defined.

(** X8. Under the same conditions the header fields survive encoding and
    decoding: the decoded packet has version 1, the flags (all eight bits),
    the id, the local identity as source and the destination. *)
Theorem decode_encode_header (st : State) (i : Z) (dst pl : list Z) (fl : Z) :
  1 <= i <= 65535 -> is_byte fl = true ->
  short_bytes (localId st) -> short_bytes dst -> bytes pl ->
  let p := decodePacket (fst (encodePacket st i dst pl fl)) in
  version p = PROTOCOL_VERSION /\ flags p = fl /\ id p = i
  /\ source p = localId st /\ destination p = dst.
Proof.
  intros Hi Hf Hs Hd Hp. cbv zeta.
  rewrite decode_encode by assumption. cbn. auto.
Qed.

Lemma decode_encode_header_witness :
  let st := mkState [55] None [] [] in
  1 <= 42 <= 65535 /\ is_byte 129 = true
  /\ short_bytes (localId st) /\ short_bytes [82; 67] /\ bytes [255]
  /\ let p := decodePacket (fst (encodePacket st 42 [82; 67] [255] 129)) in
     version p = PROTOCOL_VERSION /\ flags p = 129 /\ id p = 42
     /\ source p = localId st /\ destination p = [82; 67].
Proof.
  cbv zeta.
  assert (H1 : 1 <= 42 <= 65535) by lia.
  assert (H2 : is_byte 129 = true) by reflexivity.
  assert (H3 : short_bytes (localId (mkState [55] None [] [])))
    by (split; [repeat constructor | simpl; lia]).
  assert (H4 : short_bytes [82; 67]) by (split; [repeat constructor | simpl; lia]).
  assert (H5 : bytes [255]) by repeat constructor.
  split; [exact H1|]. split; [exact H2|]. split; [exact H3|].
  split; [exact H4|]. split; [exact H5|].
  exact (decode_encode_header _ 42 [82; 67] [255] 129 H1 H2 H3 H4 H5).
Defined.

(** X9. Under the same conditions the decoded payload is the payload cut to
    its first 255 bytes, followed by one more byte, the checksum byte of the
    frame. *)
Theorem decoded_payload_carries_checksum_byte (st : State) (i : Z) (dst pl : list Z) (fl : Z) :
  1 <= i <= 65535 -> is_byte fl = true ->
  short_bytes (localId st) -> short_bytes dst -> bytes pl ->
  let buf := fst (encodePacket st i dst pl fl) in
  payload (decodePacket buf)
  = take 255 pl ++ [getByte buf (buf_length buf - 1)].
Proof.
  intros Hi Hf Hs Hd Hp. cbv zeta.
  rewrite decode_encode by assumption. cbn [payload]. do 2 f_equal.
  rewrite encodePacket_frame by assumption. unfold frame, buf_length.
  rewrite length_app. cbn [length].
  replace (Z.of_nat (length (frame_body fl i (localId st) dst (take 255 pl)) + 1) - 1)
    with (Z.of_nat (length (frame_body fl i (localId st) dst (take 255 pl))))
    by lia.
  now rewrite getByte_app_here.
Qed.

Lemma decoded_payload_carries_checksum_byte_witness :
  let st := mkState [55] None [] [] in
  1 <= 42 <= 65535 /\ is_byte 0 = true
  /\ short_bytes (localId st) /\ short_bytes [82; 67] /\ bytes [1; 2; 3]
  /\ let buf := fst (encodePacket st 42 [82; 67] [1; 2; 3] 0) in
     payload (decodePacket buf)
     = take 255 [1; 2; 3] ++ [getByte buf (buf_length buf - 1)].
Proof.
  cbv zeta.
  assert (H1 : 1 <= 42 <= 65535) by lia.
  assert (H2 : is_byte 0 = true) by reflexivity.
  assert (H3 : short_bytes (localId (mkState [55] None [] [])))
    by (split; [repeat constructor | simpl; lia]).
  assert (H4 : short_bytes [82; 67]) by (split; [repeat constructor | simpl; lia]).
  assert (H5 : bytes [1; 2; 3]) by repeat constructor.
  split; [exact H1|]. split; [exact H2|]. split; [exact H3|].
  split; [exact H4|]. split; [exact H5|].
  exact (decoded_payload_carries_checksum_byte _ 42 [82; 67] [1; 2; 3] 0 H1 H2 H3 H4 H5).
Defined.

(** ** The dispatcher on arbitrary input (main.ts 266-296) *)

Lemma length_removeAt (l : list Z) (idx : Z) :
  (length (removeAt l idx) <= length l)%nat.
Proof.
  unfold removeAt. rewrite length_app, length_take, length_drop. lia.
Qed.

(** X10. Whatever arrives, the dispatcher keeps the local identity and the
    registered handler, never lengthens the pending-ack list, hands at most
    one frame to the radio and calls the handler at most once. *)
Theorem dispatcher_invariants (st : State) (inbound : option (list Z)) :
  let r := onReceivedBuffer st inbound in
  localId (fst r) = localId st
  /\ receiveHandler (fst r) = receiveHandler st
  /\ (length (pendingAcks (fst r)) <= length (pendingAcks st))%nat
  /\ (length (radio_sends (snd r)) <= 1)%nat
  /\ (length (handler_calls (snd r)) <= 1)%nat.
Proof.
  cbv zeta. unfold onReceivedBuffer.
  destruct inbound as [buf|]; [|cbn; repeat split; lia].
  destruct (buf_length buf <? 6); [cbn; repeat split; lia|].
  destruct (negb (computeChecksum _ _ =? _)); [cbn; repeat split; lia|].
  destruct (negb (Z.land (flags (decodePacket buf)) FLAG_IS_ACK =? 0)).
  - destruct (_ >=? 0); cbn; repeat split; try lia.
    apply length_removeAt.
  - destruct (negb (Z.land (flags (decodePacket buf)) FLAG_ACK_REQUIRED =? 0)).
    + pose proof (encodePacket_state st (id (decodePacket buf))
                    (source (decodePacket buf)) (createBuffer 0) FLAG_IS_ACK)
        as Hs.
      destruct (encodePacket st (id (decodePacket buf))
                  (source (decodePacket buf)) (createBuffer 0) FLAG_IS_ACK)
        as [ack st2].
      cbn [snd] in Hs. destruct Hs as (Hl & Hr & Hp).
      destruct (receiveHandler st2) as [h|] eqn:Eh;
        [destruct (_ || _)|]; cbn; rewrite ?Hp; repeat split;
        auto; try congruence; lia.
    + destruct (receiveHandler st) as [h|] eqn:Eh;
        [destruct (_ || _)|]; cbn; repeat split; auto; try congruence; lia.
Qed.

(** X11. The handler is called only with the packet decoded from the inbound
    buffer, only if it is the registered handler, and only when the buffer
    has at least six bytes, its checksum test passes, IS_ACK is clear and the
    destination is the local identity, "*" or the empty string. *)
Theorem handler_called_only_when_accepted
    (st : State) (inbound : option (list Z)) (h : Handler) (p : Packet) :
  In (h, p) (handler_calls (snd (onReceivedBuffer st inbound))) ->
  exists buf,
    inbound = Some buf /\ p = decodePacket buf
    /\ receiveHandler st = Some h
    /\ 6 <= buf_length buf
    /\ computeChecksum buf (buf_length buf - 1) = getByte buf (buf_length buf - 1)
    /\ Z.land (flags p) FLAG_IS_ACK = 0
    /\ addressed_here st p.
Proof.
  unfold onReceivedBuffer.
  destruct inbound as [buf|]; [|intros []].
  destruct (Z.ltb_spec (buf_length buf) 6) as [|Hlen]; [intros []|].
  destruct (Z.eqb_spec (computeChecksum buf (buf_length buf - 1))
              (getByte buf (buf_length buf - 1))) as [Hck|]; [|intros []].
  cbn [negb].
  destruct (Z.eqb_spec (Z.land (flags (decodePacket buf)) FLAG_IS_ACK) 0)
    as [Hack|]; cbn [negb]; [|destruct (_ >=? 0); intros []].
  assert (Hst : exists st1 sent,
    (if negb (Z.land (flags (decodePacket buf)) FLAG_ACK_REQUIRED =? 0)
     then let '(ack, st2) :=
            encodePacket st (id (decodePacket buf)) (source (decodePacket buf))
              (createBuffer 0) FLAG_IS_ACK in
          (st2, [RadioSend ack])
     else (st, [])) = (st1, sent)
    /\ localId st1 = localId st /\ receiveHandler st1 = receiveHandler st
    /\ handler_calls sent = []).
  { destruct (negb _).
    - pose proof (encodePacket_state st (id (decodePacket buf))
                    (source (decodePacket buf)) (createBuffer 0) FLAG_IS_ACK)
        as Hs.
      destruct (encodePacket st (id (decodePacket buf))
                  (source (decodePacket buf)) (createBuffer 0) FLAG_IS_ACK)
        as [ack st2].
      cbn [snd] in Hs. destruct Hs as (Hl & Hr & _).
      exists st2, [RadioSend ack]. auto.
    - exists st, []. auto. }
  destruct Hst as (st1 & sent & -> & Hl & Hr & Hs).
  destruct (receiveHandler st1) as [h1|] eqn:Eh; cbn [snd];
    [|rewrite Hs; intros []].
  destruct (string_eqb (destination (decodePacket buf)) (localId st1)
            || string_eqb (destination (decodePacket buf)) [42]
            || string_eqb (destination (decodePacket buf)) []) eqn:Et;
    cbn [snd]; [|rewrite Hs; intros []].
  unfold handler_calls in *. rewrite omap_app, Hs. cbn.
  intros [[= <- <-]|[]].
  exists buf. repeat split; try assumption; try congruence.
  apply (addressed_here_test st1) in Et. unfold addressed_here in *.
  now rewrite <- Hl.
Qed.

Lemma handler_called_only_when_accepted_witness :
  let st := mkState [55] (Some 0%nat) [] [] in
  let buf := [1; 0; 42; 0; 1; 65; 1; 55; 0; 93] in
  In (0%nat, decodePacket buf)
    (handler_calls (snd (onReceivedBuffer st (Some buf))))
  /\ exists b,
       Some buf = Some b /\ decodePacket buf = decodePacket b
       /\ receiveHandler st = Some 0%nat
       /\ 6 <= buf_length b
       /\ computeChecksum b (buf_length b - 1) = getByte b (buf_length b - 1)
       /\ Z.land (flags (decodePacket buf)) FLAG_IS_ACK = 0
       /\ addressed_here st (decodePacket buf).
Proof.
  cbv zeta.
  assert (H : In (0%nat, decodePacket [1; 0; 42; 0; 1; 65; 1; 55; 0; 93])
                (handler_calls
                   (snd (onReceivedBuffer (mkState [55] (Some 0%nat) [] [])
                           (Some [1; 0; 42; 0; 1; 65; 1; 55; 0; 93])))))
    by (left; reflexivity).
  split; [exact H|].
  exact (handler_called_only_when_accepted _ _ _ _ H).
Defined.

(** ** Frames on their way from one device to another *)

Lemma dispatch_is_ack (st : State) (buf : list Z) :
  valid_frame buf ->
  Z.land (flags (decodePacket buf)) FLAG_IS_ACK <> 0 ->
  onReceivedBuffer st (Some buf)
  = (set_pendingAcks st
       (remove_first (id (decodePacket buf)) (pendingAcks st)), []).
Proof.
  intros Hv Hack. unfold onReceivedBuffer.
  destruct (valid_frame_guards buf Hv) as [-> ->].
  rewrite (proj2 (Z.eqb_neq _ 0) Hack). cbn [negb].
  rewrite <- resolve_spec.
  destruct (indexOf (pendingAcks st) (id (decodePacket buf)) >=? 0);
    [reflexivity | now rewrite set_pendingAcks_same].
Qed.

Lemma dispatch_data (st : State) (buf : list Z) :
  valid_frame buf ->
  Z.land (flags (decodePacket buf)) FLAG_IS_ACK = 0 ->
  let pkt := decodePacket buf in
  let r := onReceivedBuffer st (Some buf) in
  pendingAcks (fst r) = pendingAcks st
  /\ radio_sends (snd r)
     = (if negb (Z.land (flags pkt) FLAG_ACK_REQUIRED =? 0)
        then [fst (encodePacket st (id pkt) (source pkt) (createBuffer 0)
                     FLAG_IS_ACK)]
        else [])
  /\ handler_calls (snd r)
     = match receiveHandler st with
       | Some h =>
           if string_eqb (destination pkt) (localId st)
              || string_eqb (destination pkt) [42]
              || string_eqb (destination pkt) []
           then [(h, pkt)] else []
       | None => []
       end.
Proof.
  intros Hv Hack. cbv zeta. unfold onReceivedBuffer.
  destruct (valid_frame_guards buf Hv) as [-> ->].
  rewrite Hack. cbn [Z.eqb negb].
  set (pkt := decodePacket buf).
  destruct (negb (Z.land (flags pkt) FLAG_ACK_REQUIRED =? 0)).
  - pose proof (encodePacket_state st (id pkt) (source pkt)
                  (createBuffer 0) FLAG_IS_ACK) as Hs.
    destruct (encodePacket st (id pkt) (source pkt) (createBuffer 0)
                FLAG_IS_ACK) as [ack st2].
    cbn [fst snd] in *. destruct Hs as (Hl & Hr & Hp).
    rewrite Hr, Hl.
    destruct (receiveHandler st) as [h|]; [destruct (_ || _)|];
      cbn; auto.
  - destruct (receiveHandler st) as [h|]; [destruct (_ || _)|]; cbn; auto.
Qed.

Lemma remove_first_last (x : Z) (l : list Z) :
  ~ In x l -> remove_first x (l ++ [x]) = l.
Proof.
  induction l as [|y l IH]; intros Hnin; simpl.
  - now rewrite Z.eqb_refl.
  - destruct (Z.eqb_spec y x) as [->|Hne].
    + exfalso. apply Hnin. now left.
    + rewrite IH; [reflexivity|]. intros H. apply Hnin. now right.
Qed.

(** X12. A frame the dispatcher hands to the radio is never answered: when
    it arrives at a dispatcher, in whatever state, nothing is sent and no
    handler is called. *)
Theorem acknowledgments_are_not_answered
    (st : State) (inbound : option (list Z)) (a : list Z) (st' : State) :
  In a (radio_sends (snd (onReceivedBuffer st inbound))) ->
  snd (onReceivedBuffer st' (Some a)) = [].
Proof.
  intros Hin.
  assert (Ha : exists st1 i src,
            a = fst (encodePacket st1 i src (createBuffer 0) FLAG_IS_ACK)).
  { revert Hin. unfold onReceivedBuffer.
    destruct inbound as [buf|]; [|intros []].
    destruct (buf_length buf <? 6); [intros []|].
    destruct (negb (computeChecksum _ _ =? _)); [intros []|].
    destruct (negb (Z.land (flags (decodePacket buf)) FLAG_IS_ACK =? 0));
      [destruct (_ >=? 0); intros []|].
    destruct (negb (Z.land (flags (decodePacket buf)) FLAG_ACK_REQUIRED =? 0)).
    - destruct (encodePacket st (id (decodePacket buf))
                  (source (decodePacket buf)) (createBuffer 0) FLAG_IS_ACK)
        as [ack st2] eqn:E.
      assert (Hs : forall evs, In a (radio_sends (snd (st2, evs))) ->
                   radio_sends evs = [ack] -> a = ack).
      { intros evs H1 H2. cbn [snd] in H1. rewrite H2 in H1.
        destruct H1 as [->|[]]. reflexivity. }
      intros Hin. exists st, (id (decodePacket buf)), (source (decodePacket buf)).
      rewrite E. cbn [fst]. revert Hin.
      destruct (receiveHandler st2) as [h|]; [destruct (_ || _)|];
        intros Hin; apply (Hs _ Hin); reflexivity.
    - destruct (receiveHandler st) as [h|]; [destruct (_ || _)|]; intros []. }
  destruct Ha as (st1 & i & src & ->).
  destruct (encodePacket_wire_any st1 i src (createBuffer 0) FLAG_IS_ACK)
    as (wid & -> & _).
  rewrite dispatch_is_ack; [reflexivity | apply valid_frame_wire |].
  rewrite wire_flags. vm_compute. discriminate.
Qed.

Lemma acknowledgments_are_not_answered_witness :
  let st := mkState [55] (Some 0%nat) [] [] in
  let buf := [1; 1; 42; 0; 1; 65; 1; 90; 0; 49] in
  let a := [1; 2; 42; 0; 1; 55; 1; 65; 0; 95] in
  In a (radio_sends (snd (onReceivedBuffer st (Some buf))))
  /\ snd (onReceivedBuffer (mkState [65] (Some 1%nat) [42] []) (Some a)) = [].
Proof.
  cbv zeta.
  assert (H : In [1; 2; 42; 0; 1; 55; 1; 65; 0; 95]
                (radio_sends
                   (snd (onReceivedBuffer (mkState [55] (Some 0%nat) [] [])
                           (Some [1; 1; 42; 0; 1; 65; 1; 90; 0; 49])))))
    by (left; reflexivity).
  split; [exact H|].
  exact (acknowledgments_are_not_answered _ _ _ (mkState [65] (Some 1%nat) [42] []) H).
Defined.

Lemma sendPacket_nonzero (st : State) (i : Z) (pl dst : list Z) (fl : Z) :
  i <> 0 ->
  sendPacket st i pl dst fl
  = ((if negb (Z.land fl FLAG_ACK_REQUIRED =? 0)
      then set_pendingAcks st (pendingAcks st ++ [i]) else st),
     [RadioSend (wire fl i (localId st) dst (take 255 pl))]).
Proof.
  intros Hnz. unfold sendPacket.
  rewrite (proj2 (Z.eqb_neq i 0) Hnz), encodePacket_layout by exact Hnz.
  reflexivity.
Qed.

Lemma valid_frame_frame fl i src dst pl :
  is_byte fl = true -> 0 <= i < 65536 ->
  short_bytes src -> short_bytes dst -> short_bytes pl ->
  valid_frame (frame fl i src dst pl).
Proof.
  intros Hf Hi Hs Hd Hp. rewrite <- wire_frame by assumption.
  apply valid_frame_wire.
Qed.

Lemma short_bytes_take (pl : list Z) : bytes pl -> short_bytes (take 255 pl).
Proof.
  intros Hp. split; [now apply bytes_take | rewrite length_take; lia].
Qed.

Lemma short_bytes_nil : short_bytes [].
Proof. split; [constructor | simpl; lia]. Qed.

(** X13. The acknowledgment closes the loop.  When a device sends a packet
    with a nonzero id that is not pending yet and with ACK_REQUIRED, the id
    becomes pending; any device that receives the frame answers with one
    frame; and when that frame arrives at the sender, the id is pending no
    more and the list is as it was before the send. *)
Theorem acknowledged_send_is_resolved
    (stA stB : State) (i : Z) (pl dst : list Z) :
  1 <= i <= 65535 ->
  short_bytes (localId stA) -> short_bytes (localId stB) ->
  short_bytes dst -> bytes pl ->
  ~ In i (pendingAcks stA) ->
  exists (f a : list Z),
    snd (sendPacket stA i pl dst FLAG_ACK_REQUIRED) = [RadioSend f]
    /\ pendingAcks (fst (sendPacket stA i pl dst FLAG_ACK_REQUIRED))
       = pendingAcks stA ++ [i]
    /\ radio_sends (snd (onReceivedBuffer stB (Some f))) = [a]
    /\ pendingAcks
         (fst (onReceivedBuffer
                 (fst (sendPacket stA i pl dst FLAG_ACK_REQUIRED)) (Some a)))
       = pendingAcks stA.
Proof.
  intros Hi HA HB Hd Hp Hnin.
  rewrite sendPacket_nonzero by lia.
  change (negb (Z.land FLAG_ACK_REQUIRED FLAG_ACK_REQUIRED =? 0)) with true.
  cbv iota. cbn [fst snd].
  rewrite wire_frame; try assumption; try reflexivity; try lia;
    [|now apply short_bytes_take].
  set (f := frame FLAG_ACK_REQUIRED i (localId stA) dst (take 255 pl)).
  assert (Hvf : valid_frame f).
  { apply valid_frame_frame; try assumption; try reflexivity; try lia.
    now apply short_bytes_take. }
  assert (Hdf : decodePacket f
                = mkPacket PROTOCOL_VERSION FLAG_ACK_REQUIRED i (localId stA) dst
                    (take 255 pl ++ [xor_all (frame_body FLAG_ACK_REQUIRED i
                                                (localId stA) dst (take 255 pl))]))
    by apply decodePacket_frame.
  set (a := frame FLAG_IS_ACK i (localId stB) (localId stA) []).
  assert (Hva : valid_frame a).
  { apply valid_frame_frame; try assumption; try reflexivity; try lia.
    apply short_bytes_nil. }
  assert (Hda : decodePacket a
                = mkPacket PROTOCOL_VERSION FLAG_IS_ACK i (localId stB) (localId stA)
                    ([] ++ [xor_all (frame_body FLAG_IS_ACK i (localId stB)
                                       (localId stA) [])]))
    by apply decodePacket_frame.
  exists f, a. split; [reflexivity|]. split; [reflexivity|]. split.
  - destruct (dispatch_data stB f Hvf) as (_ & Hs & _);
      [rewrite Hdf; reflexivity|].
    rewrite Hs, Hdf. cbn [flags id source].
    change (negb (Z.land FLAG_ACK_REQUIRED FLAG_ACK_REQUIRED =? 0)) with true.
    cbv iota. rewrite encodePacket_layout by lia. cbn [fst].
    change (take 255 (createBuffer 0)) with (@nil Z).
    rewrite wire_frame; try assumption; try reflexivity; try lia.
    apply short_bytes_nil.
  - rewrite dispatch_is_ack; [|exact Hva|rewrite Hda; vm_compute; discriminate].
    rewrite Hda. cbn [fst id pendingAcks set_pendingAcks].
    now apply remove_first_last.
Qed.

Lemma acknowledged_send_is_resolved_witness :
  let stA := mkState [55] None [3] [] in
  let stB := mkState [82; 67] (Some 0%nat) [] [] in
  1 <= 7 <= 65535
  /\ short_bytes (localId stA) /\ short_bytes (localId stB)
  /\ short_bytes [82; 67] /\ bytes [9]
  /\ ~ In 7 (pendingAcks stA)
  /\ exists (f a : list Z),
       snd (sendPacket stA 7 [9] [82; 67] FLAG_ACK_REQUIRED) = [RadioSend f]
       /\ pendingAcks (fst (sendPacket stA 7 [9] [82; 67] FLAG_ACK_REQUIRED))
          = pendingAcks stA ++ [7]
       /\ radio_sends (snd (onReceivedBuffer stB (Some f))) = [a]
       /\ pendingAcks
            (fst (onReceivedBuffer
                    (fst (sendPacket stA 7 [9] [82; 67] FLAG_ACK_REQUIRED))
                    (Some a)))
          = pendingAcks stA.
Proof.
  cbv zeta.
  assert (H1 : 1 <= 7 <= 65535) by lia.
  assert (H2 : short_bytes (localId (mkState [55] None [3] [])))
    by (split; [repeat constructor | simpl; lia]).
  assert (H3 : short_bytes (localId (mkState [82; 67] (Some 0%nat) [] [])))
    by (split; [repeat constructor | simpl; lia]).
  assert (H4 : short_bytes [82; 67]) by (split; [repeat constructor | simpl; lia]).
  assert (H5 : bytes [9]) by repeat constructor.
  assert (H6 : ~ In 7 (pendingAcks (mkState [55] None [3] [])))
    by (simpl; intros [H|[]]; discriminate H).
  split; [exact H1|]. split; [exact H2|]. split; [exact H3|].
  split; [exact H4|]. split; [exact H5|]. split; [exact H6|].
  exact (acknowledged_send_is_resolved _ _ 7 [9] [82; 67] H1 H2 H3 H4 H5 H6).
Defined.

(** X14. A packet sent to a device reaches its handler.  When a frame sent
    with a nonzero id and IS_ACK clear, to the identity of a device, to "*"
    or to the empty string, arrives at that device, the registered handler
    is called once, with a packet of version 1 that carries the flags, the
    id, the sender's identity as source and the destination. *)
Theorem sent_packet_reaches_handler
    (stA stB : State) (i : Z) (pl dst : list Z) (fl : Z) (h : Handler) :
  1 <= i <= 65535 -> is_byte fl = true ->
  Z.land fl FLAG_IS_ACK = 0 ->
  short_bytes (localId stA) -> short_bytes dst -> bytes pl ->
  receiveHandler stB = Some h ->
  dst = localId stB \/ dst = [42] \/ dst = [] ->
  exists (f : list Z) (p : Packet),
    snd (sendPacket stA i pl dst fl) = [RadioSend f]
    /\ handler_calls (snd (onReceivedBuffer stB (Some f))) = [(h, p)]
    /\ version p = PROTOCOL_VERSION /\ flags p = fl /\ id p = i
    /\ source p = localId stA /\ destination p = dst.
Proof.
  intros Hi Hf Hack HA Hd Hp Hh Hdst.
  rewrite sendPacket_nonzero by lia. cbn [snd].
  rewrite wire_frame; try assumption; try lia; [|now apply short_bytes_take].
  set (f := frame fl i (localId stA) dst (take 255 pl)).
  assert (Hvf : valid_frame f).
  { apply valid_frame_frame; try assumption; try lia.
    now apply short_bytes_take. }
  assert (Hdf : decodePacket f
                = mkPacket PROTOCOL_VERSION fl i (localId stA) dst
                    (take 255 pl ++ [xor_all (frame_body fl i (localId stA) dst
                                                (take 255 pl))]))
    by apply decodePacket_frame.
  exists f, (decodePacket f). split; [reflexivity|]. split.
  - destruct (dispatch_data stB f Hvf) as (_ & _ & Hc);
      [rewrite Hdf; exact Hack|].
    rewrite Hc, Hh.
    replace (_ || _) with true; [reflexivity|].
    symmetry. apply (addressed_here_test stB). unfold addressed_here.
    rewrite Hdf. exact Hdst.
  - rewrite Hdf. cbn. auto.
Qed.

Lemma sent_packet_reaches_handler_witness :
  let stA := mkState [55] None [] [] in
  let stB := mkState [82; 67] (Some 4%nat) [] [] in
  1 <= 7 <= 65535 /\ is_byte 0 = true /\ Z.land 0 FLAG_IS_ACK = 0
  /\ short_bytes (localId stA) /\ short_bytes [42] /\ bytes [9]
  /\ receiveHandler stB = Some 4%nat
  /\ ([42] = localId stB \/ [42] = [42] \/ [42] = [])
  /\ exists (f : list Z) (p : Packet),
       snd (sendPacket stA 7 [9] [42] 0) = [RadioSend f]
       /\ handler_calls (snd (onReceivedBuffer stB (Some f))) = [(4%nat, p)]
       /\ version p = PROTOCOL_VERSION /\ flags p = 0 /\ id p = 7
       /\ source p = localId stA /\ destination p = [42].
Proof.
  cbv zeta.
  assert (H1 : 1 <= 7 <= 65535) by lia.
  assert (H2 : is_byte 0 = true) by reflexivity.
  assert (H3 : Z.land 0 FLAG_IS_ACK = 0) by reflexivity.
  assert (H4 : short_bytes (localId (mkState [55] None [] [])))
    by (split; [repeat constructor | simpl; lia]).
  assert (H5 : short_bytes [42]) by (split; [repeat constructor | simpl; lia]).
  assert (H6 : bytes [9]) by repeat constructor.
  assert (H7 : receiveHandler (mkState [82; 67] (Some 4%nat) [] []) = Some 4%nat)
    by reflexivity.
  assert (H8 : [42] = localId (mkState [82; 67] (Some 4%nat) [] [])
               \/ [42] = [42] \/ [42] = [])
    by (right; left; reflexivity).
  split; [exact H1|]. split; [exact H2|]. split; [exact H3|].
  split; [exact H4|]. split; [exact H5|]. split; [exact H6|].
  split; [exact H7|]. split; [exact H8|].
  exact (sent_packet_reaches_handler _ _ 7 [9] [42] 0 4%nat
           H1 H2 H3 H4 H5 H6 H7 H8).
Defined.

(** X15. Registering a handler replaces the one registered before: on a
    valid frame with IS_ACK clear that is addressed to the device, the
    handler registered last is the one called, once, whatever was
    registered before. *)
Theorem registered_handler_is_called (st : State) (h : Handler) (buf : list Z) :
  valid_frame buf ->
  Z.land (flags (decodePacket buf)) FLAG_IS_ACK = 0 ->
  addressed_here st (decodePacket buf) ->
  handler_calls (snd (onReceivedBuffer (onReceivePacket st h) (Some buf)))
  = [(h, decodePacket buf)].
Proof.
  intros Hv Hack Hadr.
  destruct (dispatch_data (onReceivePacket st h) buf Hv Hack) as (_ & _ & ->).
  cbn [onReceivePacket set_receiveHandler receiveHandler localId].
  replace (_ || _) with true; [reflexivity|].
  symmetry. now apply (addressed_here_test st).
Qed.

Lemma registered_handler_is_called_witness :
  let st := mkState [55] (Some 1%nat) [] [] in
  let buf := [1; 0; 42; 0; 1; 65; 1; 55; 0; 93] in
  valid_frame buf
  /\ Z.land (flags (decodePacket buf)) FLAG_IS_ACK = 0
  /\ addressed_here st (decodePacket buf)
  /\ handler_calls (snd (onReceivedBuffer (onReceivePacket st 2%nat) (Some buf)))
     = [(2%nat, decodePacket buf)].
Proof.
  cbv zeta.
  assert (Hv : valid_frame [1; 0; 42; 0; 1; 65; 1; 55; 0; 93])
    by valid_frame_by_computation.
  assert (Hf : Z.land (flags (decodePacket [1; 0; 42; 0; 1; 65; 1; 55; 0; 93]))
                 FLAG_IS_ACK = 0) by reflexivity.
  assert (Ha : addressed_here (mkState [55] (Some 1%nat) [] [])
                 (decodePacket [1; 0; 42; 0; 1; 65; 1; 55; 0; 93]))
    by (left; reflexivity).
  split; [exact Hv|]. split; [exact Hf|]. split; [exact Ha|].
  exact (registered_handler_is_called _ 2%nat _ Hv Hf Ha).
Defined.

(** X16. [sendPacket] hands exactly one frame to the radio, a frame that
    passes the dispatcher's tests, and keeps the local identity and the
    handler; without ACK_REQUIRED it leaves the pending-ack list as it is. *)
Theorem sendPacket_without_ack (st : State) (i : Z) (pl dst : list Z) (fl : Z) :
  Z.land fl FLAG_ACK_REQUIRED = 0 ->
  let r := sendPacket st i pl dst fl in
  pendingAcks (fst r) = pendingAcks st
  /\ localId (fst r) = localId st
  /\ receiveHandler (fst r) = receiveHandler st
  /\ exists f, snd r = [RadioSend f] /\ valid_frame f.
Proof.
  intros Hfl. cbv zeta. unfold sendPacket. rewrite Hfl. cbn [Z.eqb negb].
  assert (H1 : exists i1 st1,
            (if i =? 0 then generatePacketId st else (i, st)) = (i1, st1)
            /\ localId st1 = localId st
            /\ receiveHandler st1 = receiveHandler st
            /\ pendingAcks st1 = pendingAcks st).
  { destruct (i =? 0).
    - pose proof (generatePacketId_state st) as Hs.
      destruct (generatePacketId st) as [i1 st1]. exists i1, st1. auto.
    - exists i, st. auto. }
  destruct H1 as (i1 & st1 & -> & Hl & Hr & Hp).
  pose proof (encodePacket_state st1 i1 dst pl fl) as Hs.
  destruct (encodePacket_wire_any st1 i1 dst pl fl) as (wid & Hw & _).
  destruct (encodePacket st1 i1 dst pl fl) as [pkt st2].
  cbn [fst snd] in *. destruct Hs as (Hl2 & Hr2 & Hp2).
  repeat split; try congruence.
  exists pkt. split; [reflexivity|]. rewrite Hw. apply valid_frame_wire.
Qed.

Lemma sendPacket_without_ack_witness :
  let st := mkState [55] (Some 1%nat) [3] [9] in
  Z.land 0 FLAG_ACK_REQUIRED = 0
  /\ let r := sendPacket st 0 [9] [82; 67] 0 in
     pendingAcks (fst r) = pendingAcks st
     /\ localId (fst r) = localId st
     /\ receiveHandler (fst r) = receiveHandler st
     /\ exists f, snd r = [RadioSend f] /\ valid_frame f.
Proof.
  cbv zeta.
  assert (H : Z.land 0 FLAG_ACK_REQUIRED = 0) by reflexivity.
  split; [exact H|].
  exact (sendPacket_without_ack (mkState [55] (Some 1%nat) [3] [9]) 0 [9] [82; 67] 0 H).
Defined.

(** ** String fields and copies in a buffer of any content (main.ts 53-57, 111-129) *)

(** Storing [f 0 .. f (k-1)] from position [p] on, where [k] bytes are
    there to take them. *)
Lemma blit_loop (p : Z) (f : Z -> Z) (cond : Z -> bool) (fuel k : nat)
    (w mid r : list Z) :
  Z.of_nat (length w) = p -> length mid = k -> (k <= fuel)%nat ->
  (forall j : nat, (j < k)%nat -> cond (Z.of_nat j) = true) ->
  (k = fuel \/ cond (Z.of_nat k) = false) ->
  for_loop fuel cond (fun i b => setByte b (p + i) (f i)) 0 (w ++ mid ++ r)
  = w ++ ((fun j : nat => low8 (f (Z.of_nat j))) <$> seq 0 k) ++ r.
Proof.
  intros Hw Hmid Hle Hc Hstop.
  rewrite (for_loop_from_0 _ _ k) by assumption.
  apply (blit_fold p f k 0 w mid r); [lia | exact Hmid].
Qed.

(** X17. With its offset inside the buffer, [writeString] stores the low
    eight bits of the string's length, then as many characters as the buffer
    has room for, and leaves every other byte as it was; its result is
    1 + the length of the string, also when not all of it was written. *)
Theorem writeString_writes_what_fits (buf : list Z) (o : Z) (s : list Z) :
  0 <= o < buf_length buf ->
  let k := (length s `min` (length buf - Z.to_nat o - 1))%nat in
  writeString buf o s
  = (take (Z.to_nat o) buf
       ++ low8 (str_length s) :: (low8 <$> take k s)
       ++ drop (Z.to_nat o + 1 + k) buf,
     1 + str_length s).
Proof.
  intros Ho k. unfold buf_length in Ho.
  destruct (lookup_lt_is_Some_2 buf (Z.to_nat o) ltac:(lia)) as [z Hz].
  set (w := take (Z.to_nat o) buf).
  set (rest := drop (S (Z.to_nat o)) buf).
  assert (Hbuf : buf = w ++ z :: take k rest ++ drop k rest).
  { rewrite take_drop. unfold w, rest. symmetry. now apply take_drop_middle. }
  assert (Hw : o = Z.of_nat (length w)) by (unfold w; rewrite length_take; lia).
  assert (Hk : length (take k rest) = k).
  { unfold rest, k. rewrite length_take, length_drop. lia. }
  assert (Hd : drop (Z.to_nat o + 1 + k) buf = drop k rest).
  { unfold rest. rewrite drop_drop. f_equal. lia. }
  rewrite Hd. unfold writeString. f_equal.
  rewrite Hbuf at 1. rewrite (setByte_at w z _ _ o Hw).
  rewrite (blit_loop (o + 1) (charCodeAt s) _ (length s) k
             (w ++ [low8 (str_length s)]) (take k rest) (drop k rest)).
  - rewrite <- app_assoc. cbn [app]. do 2 f_equal.
    rewrite <- (fmap_lookup_seq_take low8 s k) by (unfold k; lia).
    f_equal. apply list_fmap_ext. intros i j _. unfold charCodeAt.
    now rewrite Nat2Z.id.
  - rewrite length_app. cbn [length]. lia.
  - exact Hk.
  - unfold k. lia.
  - intros j Hj. apply andb_true_iff. rewrite !Z.ltb_lt.
    unfold str_length, buf_length. rewrite length_setByte.
    unfold k in *. lia.
  - destruct (decide (k = length s)) as [E|E]; [now left|right].
    apply andb_false_iff. right. apply Z.ltb_ge.
    unfold buf_length. rewrite length_setByte. unfold k in *. lia.
Qed.

Lemma writeString_writes_what_fits_witness :
  0 <= 1 < buf_length [9; 9; 9; 9]
  /\ writeString [9; 9; 9; 9] 1 [65; 66; 67; 68] = ([9; 4; 65; 66], 5).
Proof.
  assert (H : 0 <= 1 < buf_length [9; 9; 9; 9]) by (unfold buf_length; simpl; lia).
  split; [exact H|].
  exact (writeString_writes_what_fits [9; 9; 9; 9] 1 [65; 66; 67; 68] H).
Defined.

(** X18. A string of at most 255 byte-valued characters written where the
    buffer has room for it is read back from the same offset, and
    [readString] consumes as many bytes as [writeString] reported. *)
Theorem readString_writeString (buf : list Z) (o : Z) (s : list Z) :
  0 <= o -> o + 1 + str_length s <= buf_length buf -> short_bytes s ->
  readString (fst (writeString buf o s)) o
  = mkStringField s (snd (writeString buf o s)).
Proof.
  intros Ho Hroom [Hs Hl]. unfold str_length, buf_length in Hroom.
  destruct (lookup_lt_is_Some_2 buf (Z.to_nat o) ltac:(lia)) as [z Hz].
  set (w := take (Z.to_nat o) buf).
  set (rest := drop (S (Z.to_nat o)) buf).
  assert (Hbuf : buf = w ++ z :: take (length s) rest ++ drop (length s) rest).
  { rewrite take_drop. unfold w, rest. symmetry. now apply take_drop_middle. }
  assert (Hw : o = Z.of_nat (length w)) by (unfold w; rewrite length_take; lia).
  assert (Hm : length (take (length s) rest) = length s).
  { unfold rest. rewrite length_take, length_drop. lia. }
  rewrite Hbuf, (writeString_at w z _ _ s o Hw Hm). cbn [fst snd].
  rewrite (fmap_low8_bytes s Hs). unfold str_length at 1.
  rewrite low8_length by exact Hl.
  rewrite <- app_assoc. cbn [app]. now apply readString_at.
Qed.

Lemma readString_writeString_witness :
  0 <= 2 /\ 2 + 1 + str_length [72; 105] <= buf_length [7; 7; 7; 7; 7; 7]
  /\ short_bytes [72; 105]
  /\ readString (fst (writeString [7; 7; 7; 7; 7; 7] 2 [72; 105])) 2
     = mkStringField [72; 105] (snd (writeString [7; 7; 7; 7; 7; 7] 2 [72; 105])).
Proof.
  assert (H1 : 0 <= 2) by lia.
  assert (H2 : 2 + 1 + str_length [72; 105] <= buf_length [7; 7; 7; 7; 7; 7])
    by (unfold str_length, buf_length; simpl; lia).
  assert (H3 : short_bytes [72; 105]) by (split; [repeat constructor | simpl; lia]).
  split; [exact H1|]. split; [exact H2|]. split; [exact H3|].
  exact (readString_writeString [7; 7; 7; 7; 7; 7] 2 [72; 105] H1 H2 H3).
Defined.

(** X19. With its offset inside the destination (or at its end),
    [copyBuffer] copies as many bytes of the source as the destination has
    room for and leaves every other byte of the destination as it was. *)
Theorem copyBuffer_copies_what_fits (src dst : list Z) (o : Z) :
  0 <= o <= buf_length dst ->
  let k := (length src `min` (length dst - Z.to_nat o))%nat in
  copyBuffer src dst o
  = take (Z.to_nat o) dst ++ (low8 <$> take k src)
      ++ drop (Z.to_nat o + k) dst.
Proof.
  intros Ho k. unfold buf_length in Ho.
  set (w := take (Z.to_nat o) dst).
  set (rest := drop (Z.to_nat o) dst).
  assert (Hdst : dst = w ++ take k rest ++ drop k rest)
    by (rewrite take_drop; unfold w, rest; now rewrite take_drop).
  assert (Hw : Z.of_nat (length w) = o) by (unfold w; rewrite length_take; lia).
  assert (Hk : length (take k rest) = k).
  { unfold rest, k. rewrite length_take, length_drop. lia. }
  assert (Hd : drop (Z.to_nat o + k) dst = drop k rest).
  { unfold rest. now rewrite drop_drop. }
  rewrite Hd. unfold copyBuffer.
  assert (Hlen : buf_length dst = Z.of_nat (length dst)) by reflexivity.
  rewrite Hlen. rewrite Hdst at 1.
  rewrite (blit_loop o (getByte src) _ (length src) k w (take k rest) (drop k rest)).
  - do 2 f_equal.
    rewrite <- (fmap_lookup_seq_take low8 src k) by (unfold k; lia).
    apply list_fmap_ext. intros i j _. now rewrite getByte_nat.
  - exact Hw.
  - exact Hk.
  - unfold k. lia.
  - intros j Hj. apply andb_true_iff. rewrite !Z.ltb_lt.
    unfold buf_length. unfold k in *. lia.
  - destruct (decide (k = length src)) as [E|E]; [now left|right].
    apply andb_false_iff. right. apply Z.ltb_ge. unfold k in *. lia.
Qed.

Lemma copyBuffer_copies_what_fits_witness :
  0 <= 2 <= buf_length [7; 7; 7; 7]
  /\ copyBuffer [1; 2; 3] [7; 7; 7; 7] 2 = [7; 7; 1; 2].
Proof.
  assert (H : 0 <= 2 <= buf_length [7; 7; 7; 7]) by (unfold buf_length; simpl; lia).
  split; [exact H|].
  exact (copyBuffer_copies_what_fits [1; 2; 3] [7; 7; 7; 7] 2 H).
Defined.

(** X20. With its offset inside the buffer, [readString] returns the bytes
    that follow the length byte, as many as the length byte says or, when
    the buffer ends before, as many as remain, and reports one more than
    that number as consumed. *)
Theorem readString_returns_what_follows (buf : list Z) (o : Z) :
  0 <= o < buf_length buf ->
  let n := Z.min (getByte buf o) (buf_length buf - o - 1) in
  readString buf o
  = mkStringField (take (Z.to_nat n) (drop (Z.to_nat o + 1) buf)) (1 + n).
Proof.
  intros Ho n. unfold readString. rewrite readString_traced_eq. cbn [fst].
  assert (Hn : (if o + 1 + getByte buf o >? buf_length buf
                then Z.max 0 (buf_length buf - (o + 1))
                else getByte buf o) = n).
  { unfold n. destruct (Z.gtb_spec (o + 1 + getByte buf o) (buf_length buf)); lia. }
  rewrite Hn. f_equal.
  assert (Hle : n <= buf_length buf - o - 1) by (unfold n; lia).
  unfold buf_length in *.
  apply list_eq. intros i. rewrite list_lookup_fmap.
  destruct (decide (i < Z.to_nat n)%nat) as [Hlt|Hge].
  - rewrite lookup_seq_lt by lia. simpl.
    rewrite lookup_take_lt, lookup_drop by lia.
    replace (o + 1 + Z.of_nat i) with (Z.of_nat (Z.to_nat o + 1 + i)) by lia.
    rewrite getByte_nat.
    destruct (lookup_lt_is_Some_2 buf (Z.to_nat o + 1 + i) ltac:(lia)) as [x Hx].
    now rewrite Hx.
  - rewrite lookup_seq_ge by lia. simpl. symmetry.
    apply lookup_ge_None_2. rewrite length_take. lia.
Qed.

Lemma readString_returns_what_follows_witness :
  0 <= 1 < buf_length [0; 200; 65; 66]
  /\ readString [0; 200; 65; 66] 1 = mkStringField [65; 66] 3.
Proof.
  assert (H : 0 <= 1 < buf_length [0; 200; 65; 66])
    by (unfold buf_length; simpl; lia).
  split; [exact H|].
  exact (readString_returns_what_follows [0; 200; 65; 66] 1 H).
Defined.

(** ** The checksum on any buffer and length (main.ts 103-109) *)

(** X21. [computeChecksum buf n] is a byte, the XOR of the first [n] values
    of the buffer cut to eight bits; a length beyond the buffer covers the
    whole buffer, and a length of 0 or less gives 0. *)
Theorem computeChecksum_is_xor_of_prefix (buf : list Z) (n : Z) :
  computeChecksum buf n = low8 (xor_all (take (Z.to_nat n) buf))
  /\ is_byte (computeChecksum buf n) = true.
Proof.
  assert (E : computeChecksum buf n = low8 (xor_all (take (Z.to_nat n) buf))).
  { rewrite computeChecksum_spec. fold (low8 (xor_all
      (take (Z.to_nat (Z.min n (buf_length buf))) buf))).
    do 2 f_equal. unfold buf_length.
    destruct (Z.le_gt_cases n (Z.of_nat (length buf))) as [Hle|Hgt].
    - f_equal. lia.
    - rewrite !take_ge by lia. reflexivity. }
  split; [exact E|]. rewrite E. apply is_byte_low8.
Qed.

(** X22. For a nonempty buffer of bytes, the last byte is the XOR of the
    bytes before it exactly when the checksum over the whole buffer, last
    byte included, is 0. *)
Theorem checksum_valid_iff_total_zero (buf : list Z) :
  bytes buf -> 1 <= buf_length buf ->
  checksum_valid buf <-> computeChecksum buf (buf_length buf) = 0.
Proof.
  intros Hb Hlen. unfold buf_length in Hlen.
  destruct (lookup_lt_is_Some_2 buf (length buf - 1) ltac:(lia)) as [c Hc].
  assert (Hbuf : buf = take (length buf - 1) buf ++ [c]).
  { rewrite <- (take_drop_middle buf (length buf - 1) c Hc) at 1.
    f_equal. f_equal. apply drop_ge. lia. }
  assert (Hg : getByte buf (buf_length buf - 1) = c).
  { unfold buf_length.
    replace (Z.of_nat (length buf) - 1) with (Z.of_nat (length buf - 1)) by lia.
    now rewrite getByte_nat, Hc. }
  assert (Ht : computeChecksum buf (buf_length buf)
               = Z.lxor (xor_all (take (length buf - 1) buf)) c).
  { rewrite computeChecksum_spec. unfold buf_length.
    replace (Z.to_nat _) with (length buf) by lia.
    rewrite firstn_all. fold (low8 (xor_all buf)).
    rewrite (low8_byte _ (is_byte_xor_all buf Hb)).
    rewrite Hbuf at 1. rewrite xor_all_app, xor_all_cons.
    unfold xor_all at 2. simpl. now rewrite Z.lxor_0_r. }
  unfold checksum_valid. rewrite Hg, Ht. split.
  - intros ->. apply Z.lxor_nilpotent.
  - intros H. symmetry. now apply Z.lxor_eq.
Qed.

Lemma checksum_valid_iff_total_zero_witness :
  bytes [1; 2; 3] /\ 1 <= buf_length [1; 2; 3]
  /\ (checksum_valid [1; 2; 3] <-> computeChecksum [1; 2; 3] (buf_length [1; 2; 3]) = 0).
Proof.
  assert (H1 : bytes [1; 2; 3]) by repeat constructor.
  assert (H2 : 1 <= buf_length [1; 2; 3]) by (unfold buf_length; simpl; lia).
  split; [exact H1|]. split; [exact H2|].
  exact (checksum_valid_iff_total_zero [1; 2; 3] H1 H2).
Defined.

(** ** Decoding any buffer of bytes (main.ts 176-203) *)

Lemma bytes_slice (buf : list Z) (o n : Z) : bytes buf -> bytes (slice buf o n).
Proof. intros Hb. unfold slice. now apply Forall_take, Forall_drop. Qed.

(** X23. Whatever bytes arrive, well formed or not, [decodePacket] gives a
    packet within the ranges of its fields: version and flags are bytes, the
    id has 16 bits, source and destination have at most 255 byte-valued
    characters, and the payload is a part of the buffer, no longer than it
    and made of bytes. *)
Theorem decodePacket_fields_in_range (buf : list Z) :
  bytes buf ->
  let p := decodePacket buf in
  is_byte (version p) = true /\ is_byte (flags p) = true
  /\ 0 <= id p < 65536
  /\ short_bytes (source p) /\ short_bytes (destination p)
  /\ bytes (payload p) /\ (length (payload p) <= length buf)%nat.
Proof.
  intros Hb. cbv zeta. unfold decodePacket. cbn [version flags id source destination payload].
  split; [now apply is_byte_getByte|].
  split; [now apply is_byte_getByte|].
  split; [now apply getNumber_range|].
  split; [now apply readString_value_short|].
  split; [now apply readString_value_short|].
  split; [now apply bytes_slice|].
  unfold slice. rewrite length_take, length_drop. lia.
Qed.

Lemma decodePacket_fields_in_range_witness :
  bytes [255; 255; 255; 255; 255; 255; 255]
  /\ let p := decodePacket [255; 255; 255; 255; 255; 255; 255] in
     is_byte (version p) = true /\ is_byte (flags p) = true
     /\ 0 <= id p < 65536
     /\ short_bytes (source p) /\ short_bytes (destination p)
     /\ bytes (payload p)
     /\ (length (payload p) <= length [255; 255; 255; 255; 255; 255; 255])%nat.
Proof.
  assert (H : bytes [255; 255; 255; 255; 255; 255; 255]) by repeat constructor.
  split; [exact H|].
  exact (decodePacket_fields_in_range [255; 255; 255; 255; 255; 255; 255] H).
Defined.

(** ** The two copies compared (main.ts 103-129 and 362-385) *)

Lemma for_loop_idle {A : Type} (c : Z -> bool) (body : Z -> A -> A) (acc : A) :
  forall (fuel : nat) (i : Z),
    (forall j, i <= j -> body j acc = acc) ->
    for_loop fuel c body i acc = acc.
Proof.
  induction fuel as [|fuel IH]; intros i H; [reflexivity|].
  simpl. destruct (c i); [|reflexivity].
  rewrite (H i) by lia. apply IH. intros j Hj. apply H. lia.
Qed.

(** A guard in the loop condition that only stops stores which would be
    dropped anyway changes nothing. *)
Lemma for_loop_guard {A : Type} (c d : Z -> bool) (body : Z -> A -> A)
    (P : A -> Prop) :
  (forall j a, P a -> P (body j a)) ->
  (forall i j a, P a -> d i = false -> i <= j -> body j a = a) ->
  forall (fuel : nat) (i : Z) (acc : A),
    P acc ->
    for_loop fuel (fun i => c i && d i) body i acc = for_loop fuel c body i acc.
Proof.
  intros HP Hd. induction fuel as [|fuel IH]; intros i acc Hacc; [reflexivity|].
  simpl. destruct (c i); [|reflexivity].
  destruct (d i) eqn:Ed; cbn [andb].
  - apply IH. now apply HP.
  - rewrite (Hd i i acc Hacc Ed) by lia. symmetry.
    apply for_loop_idle. intros j Hj. apply (Hd i j acc Hacc Ed). lia.
Qed.

(** X24. The bounds test in the loop of the first copy's [writeString] does
    not change what is written: for every buffer, offset and string the two
    copies return the same buffer and the same result. *)
Theorem writeString_copies_agree (buf : list Z) (o : Z) (s : list Z) :
  SecondCopy.writeString buf o s = writeString buf o s.
Proof.
  unfold SecondCopy.writeString, writeString. f_equal. symmetry.
  apply (for_loop_guard _ _ _ (fun a => length a = length buf)).
  - intros j a Ha. now rewrite length_setByte.
  - intros i j a Ha Hd Hij. apply Z.ltb_ge in Hd.
    unfold setByte.
    replace (in_range a (o + 1 + j)) with false; [reflexivity|].
    symmetry. unfold in_range. apply andb_false_iff. right. apply Z.ltb_ge.
    unfold buf_length in *. rewrite length_setByte in Hd. lia.
  - apply length_setByte.
Qed.

Lemma xor_fold_beyond (buf : list Z) (l : list nat) :
  Forall (fun j => (length buf <= j)%nat) l ->
  forall acc,
    fold_left (fun a j => Z.lxor a (getByte buf (Z.of_nat j))) l acc = acc.
Proof.
  induction 1 as [|j l Hj Hl IH]; intros acc; [reflexivity|].
  simpl. rewrite getByte_nat, lookup_ge_None_2 by lia. simpl.
  rewrite Z.lxor_0_r. apply IH.
Qed.

(** X25. On a buffer of bytes the two copies of [computeChecksum] agree for
    every length: the mask and the bounds test of the first copy change
    nothing there. *)
Theorem computeChecksum_copies_agree (buf : list Z) (n : Z) :
  bytes buf ->
  SecondCopy.computeChecksum buf n = computeChecksum buf n.
Proof.
  intros Hb. rewrite computeChecksum_spec.
  fold (low8 (xor_all (take (Z.to_nat (Z.min n (buf_length buf))) buf))).
  rewrite low8_byte by (apply is_byte_xor_all, bytes_take, Hb).
  unfold SecondCopy.computeChecksum, buf_length.
  rewrite (for_loop_from_0 _ _ (Z.to_nat n)); [|lia| |now left].
  - destruct (Z.le_gt_cases n (Z.of_nat (length buf))) as [Hle|Hgt].
    + rewrite xor_fold_take by lia. unfold xor_all. do 2 f_equal. lia.
    + replace (Z.to_nat n)
        with (length buf + (Z.to_nat n - length buf))%nat by lia.
      rewrite seq_app, fold_left_app, xor_fold_take by lia.
      rewrite xor_fold_beyond.
      * unfold xor_all. do 2 f_equal. lia.
      * apply Forall_forall. intros j Hj.
        apply list_elem_of_In, in_seq in Hj. lia.
  - intros j Hj. apply Z.ltb_lt. lia.
Qed.

Lemma computeChecksum_copies_agree_witness :
  bytes [1; 2; 3]
  /\ SecondCopy.computeChecksum [1; 2; 3] 5 = computeChecksum [1; 2; 3] 5.
Proof.
  assert (H : bytes [1; 2; 3]) by repeat constructor.
  split; [exact H | exact (computeChecksum_copies_agree [1; 2; 3] 5 H)].
Defined.

Lemma second_copy_readString_fits (buf : list Z) (o : Z) :
  o + 1 + getByte buf o <= buf_length buf ->
  SecondCopy.readString buf o = readString buf o.
Proof.
  intros H. unfold SecondCopy.readString, SecondCopy.readString_traced,
    readString, readString_traced.
  replace (o + 1 + getByte buf o >? buf_length buf) with false; [reflexivity|].
  symmetry. rewrite Z.gtb_ltb. apply Z.ltb_ge. exact H.
Qed.

Lemma second_copy_readString_at (w : list Z) (s r : list Z) o :
  o = Z.of_nat (length w) ->
  SecondCopy.readString (w ++ str_length s :: s ++ r) o
  = mkStringField s (1 + str_length s).
Proof.
  intros ->. rewrite second_copy_readString_fits; [now apply readString_at|].
  rewrite getByte_app_here. unfold str_length, buf_length.
  rewrite length_app. cbn [length]. rewrite length_app. lia.
Qed.

Lemma slice_span (w m r : list Z) (o n : Z) :
  o = Z.of_nat (length w) -> n = Z.of_nat (length m) ->
  slice (w ++ m ++ r) o n = m.
Proof.
  intros -> ->. unfold slice, buf_length. rewrite !length_app.
  replace (Z.of_nat (length m) <? 0) with false by (symmetry; apply Z.ltb_ge; lia).
  replace (Z.to_nat (Z.min _ (Z.of_nat (length w)))) with (length w) by lia.
  replace (Z.to_nat (Z.min _ _)) with (length m) by lia.
  rewrite drop_app_length. apply take_app_length.
Qed.

(** X26. The second copy's [decodePacket], which hands [slice] the payload
    length, returns every field of a frame in the documented layout as it
    was laid out, the payload included. *)
Theorem second_copy_decodes_frame (fl i : Z) (src dst pl : list Z) :
  SecondCopy.decodePacket (frame fl i src dst pl)
  = mkPacket PROTOCOL_VERSION fl i src dst pl.
Proof.
  rewrite frame_flat.
  set (c := xor_all (frame_body fl i src dst pl)).
  set (v := PROTOCOL_VERSION). set (lo := i mod 256). set (hi := i / 256).
  set (B := v :: fl :: lo :: hi :: str_length src :: src
              ++ str_length dst :: dst ++ buf_length pl :: pl ++ [c]).
  assert (E0 : getByte B 0 = v) by exact (getByte_at [] v _ 0 eq_refl).
  assert (E1 : getByte B (0 + 1) = fl) by exact (getByte_at [v] fl _ 1 eq_refl).
  assert (E2 : getNumber_UInt16LE B (0 + 1 + 1) = Z.lor lo (Z.shiftl hi 8))
    by exact (getNumber_at [v; fl] lo hi _ 2 eq_refl).
  assert (E3 : SecondCopy.readString B (0 + 1 + 1 + 2)
               = mkStringField src (1 + str_length src))
    by exact (second_copy_readString_at [v; fl; lo; hi] src _ 4 eq_refl).
  assert (E4 : SecondCopy.readString B (0 + 1 + 1 + 2 + (1 + str_length src))
               = mkStringField dst (1 + str_length dst)).
  { apply (second_copy_readString_at ([v; fl; lo; hi; str_length src] ++ src) dst).
    unfold str_length. rewrite length_app. simpl. lia. }
  assert (E5 : getByte B (0 + 1 + 1 + 2 + (1 + str_length src)
                          + (1 + str_length dst)) = buf_length pl).
  { replace B with
      (([v; fl; lo; hi; str_length src] ++ src ++ str_length dst :: dst)
         ++ buf_length pl :: pl ++ [c]).
    - apply getByte_at. unfold str_length. rewrite !length_app. simpl. lia.
    - unfold B. repeat first [ rewrite <- app_assoc | progress cbn [app] ].
      reflexivity. }
  assert (E6 : slice B (0 + 1 + 1 + 2 + (1 + str_length src)
                        + (1 + str_length dst) + 1) (buf_length pl) = pl).
  { replace B with
      (([v; fl; lo; hi; str_length src] ++ src ++ str_length dst :: dst
          ++ [buf_length pl]) ++ pl ++ [c]).
    - apply slice_span; [|reflexivity].
      unfold str_length. rewrite !length_app. simpl. rewrite length_app.
      simpl. lia.
    - unfold B. repeat first [ rewrite <- app_assoc | progress cbn [app] ].
      reflexivity. }
  unfold SecondCopy.decodePacket. cbv zeta.
  rewrite E0, E1, E2, E3. cbn [size value].
  rewrite E4. cbn [size value].
  rewrite E5, E6. unfold lo, hi. now rewrite uint16_bytes.
Qed.

(** ** The edges of the dispatcher's tests (main.ts 266-296) *)

(** X27. The dispatcher transmits only on request: a frame goes to the radio
    only when the inbound buffer has at least six bytes, passes the checksum
    test, has IS_ACK clear and ACK_REQUIRED set; and that frame is the
    acknowledgment encoded for the id and the source decoded from it. *)
Theorem dispatcher_sends_only_on_request
    (st : State) (inbound : option (list Z)) (a : list Z) :
  In a (radio_sends (snd (onReceivedBuffer st inbound))) ->
  exists buf,
    inbound = Some buf
    /\ 6 <= buf_length buf
    /\ computeChecksum buf (buf_length buf - 1) = getByte buf (buf_length buf - 1)
    /\ Z.land (flags (decodePacket buf)) FLAG_IS_ACK = 0
    /\ Z.land (flags (decodePacket buf)) FLAG_ACK_REQUIRED <> 0
    /\ a = fst (encodePacket st (id (decodePacket buf))
                  (source (decodePacket buf)) (createBuffer 0) FLAG_IS_ACK).
Proof.
  unfold onReceivedBuffer.
  destruct inbound as [buf|]; [|intros []].
  destruct (Z.ltb_spec (buf_length buf) 6) as [|Hlen]; [intros []|].
  destruct (Z.eqb_spec (computeChecksum buf (buf_length buf - 1))
              (getByte buf (buf_length buf - 1))) as [Hck|]; [|intros []].
  cbn [negb].
  destruct (Z.eqb_spec (Z.land (flags (decodePacket buf)) FLAG_IS_ACK) 0)
    as [Hack|]; cbn [negb]; [|destruct (_ >=? 0); intros []].
  destruct (Z.eqb_spec (Z.land (flags (decodePacket buf)) FLAG_ACK_REQUIRED) 0)
    as [|Hreq]; cbn [negb].
  - destruct (receiveHandler st) as [h|]; [destruct (_ || _)|]; intros [].
  - destruct (encodePacket st (id (decodePacket buf))
                (source (decodePacket buf)) (createBuffer 0) FLAG_IS_ACK)
      as [ack st2] eqn:E.
    intros Hin. exists buf. repeat split; try assumption.
    rewrite E. cbn [fst]. revert Hin.
    destruct (receiveHandler st2) as [h|]; [destruct (_ || _)|];
      cbn; intros [->|[]]; reflexivity.
Qed.

Lemma dispatcher_sends_only_on_request_witness :
  let st := mkState [55] (Some 0%nat) [] [] in
  let buf := [1; 1; 42; 0; 1; 65; 1; 90; 0; 49] in
  let a := [1; 2; 42; 0; 1; 55; 1; 65; 0; 95] in
  In a (radio_sends (snd (onReceivedBuffer st (Some buf))))
  /\ exists b,
       Some buf = Some b
       /\ 6 <= buf_length b
       /\ computeChecksum b (buf_length b - 1) = getByte b (buf_length b - 1)
       /\ Z.land (flags (decodePacket b)) FLAG_IS_ACK = 0
       /\ Z.land (flags (decodePacket b)) FLAG_ACK_REQUIRED <> 0
       /\ a = fst (encodePacket st (id (decodePacket b))
                     (source (decodePacket b)) (createBuffer 0) FLAG_IS_ACK).
Proof.
  cbv zeta.
  assert (H : In [1; 2; 42; 0; 1; 55; 1; 65; 0; 95]
                (radio_sends
                   (snd (onReceivedBuffer (mkState [55] (Some 0%nat) [] [])
                           (Some [1; 1; 42; 0; 1; 65; 1; 90; 0; 49])))))
    by (left; reflexivity).
  split; [exact H|].
  exact (dispatcher_sends_only_on_request _ _ _ H).
Defined.

Lemma readString_outside (buf : list Z) (o : Z) :
  buf_length buf <= o -> readString buf o = mkStringField [] 1.
Proof.
  intros Ho. unfold readString. rewrite readString_traced_eq. cbn [fst].
  assert (Hg : getByte buf o = 0).
  { unfold getByte. replace (in_range buf o) with false; [reflexivity|].
    symmetry. unfold in_range. apply andb_false_iff. right.
    apply Z.ltb_ge. exact Ho. }
  rewrite Hg. unfold buf_length in *.
  replace (o + 1 + 0 >? Z.of_nat (length buf)) with true
    by (symmetry; rewrite Z.gtb_ltb; apply Z.ltb_lt; lia).
  replace (Z.max 0 (Z.of_nat (length buf) - (o + 1))) with 0 by lia.
  reflexivity.
Qed.

Lemma readString_bounds (buf : list Z) (o : Z) :
  bytes buf -> 0 <= o ->
  size (readString buf o) = 1 + str_length (value (readString buf o))
  /\ str_length (value (readString buf o))
     <= Z.max 0 (buf_length buf - o - 1).
Proof.
  intros Hb Ho. unfold readString. rewrite readString_traced_eq.
  cbn [fst size value]. unfold str_length. rewrite length_fmap, length_seq.
  pose proof (proj1 (is_byte_spec _) (is_byte_getByte buf o Hb)) as Hg.
  destruct (Z.gtb_spec (o + 1 + getByte buf o) (buf_length buf)); lia.
Qed.

Lemma six_bytes_decode (buf : list Z) :
  bytes buf -> buf_length buf = 6 -> destination (decodePacket buf) = [].
Proof.
  intros Hb Hlen. unfold decodePacket. cbn [destination].
  change (0 + 1 + 1 + 2) with 4.
  destruct (readString_bounds buf 4 Hb ltac:(lia)) as [Hs _].
  set (o2 := 4 + size (readString buf 4)) in *.
  assert (Ho2 : 5 <= o2) by (unfold o2, str_length in *; lia).
  destruct (readString_bounds buf o2 Hb ltac:(lia)) as [_ Hd].
  unfold str_length in Hd.
  destruct (value (readString buf o2)) as [|x l]; [reflexivity|].
  simpl in Hd. lia.
Qed.

(** X28. The length test of the dispatcher passes buffers of six bytes,
    shorter than any frame [encodePacket] produces.  Such a buffer of bytes
    decodes with an empty destination, so when its checksum test passes and
    IS_ACK is clear it reaches the registered handler, whatever the local
    identity. *)
Theorem six_byte_buffer_reaches_handler (st : State) (buf : list Z) (h : Handler) :
  valid_frame buf -> buf_length buf = 6 ->
  Z.land (flags (decodePacket buf)) FLAG_IS_ACK = 0 ->
  receiveHandler st = Some h ->
  destination (decodePacket buf) = []
  /\ handler_calls (snd (onReceivedBuffer st (Some buf)))
     = [(h, decodePacket buf)].
Proof.
  intros Hv Hlen Hack Hh.
  assert (Hd : destination (decodePacket buf) = [])
    by (destruct Hv as (Hb & _); now apply six_bytes_decode).
  split; [exact Hd|].
  destruct (dispatch_data st buf Hv Hack) as (_ & _ & ->).
  rewrite Hh, Hd. cbn [string_eqb]. rewrite orb_true_r. reflexivity.
Qed.

Lemma six_byte_buffer_reaches_handler_witness :
  let st := mkState [55] (Some 0%nat) [] [] in
  let buf := [1; 0; 7; 0; 9; 15] in
  valid_frame buf /\ buf_length buf = 6
  /\ Z.land (flags (decodePacket buf)) FLAG_IS_ACK = 0
  /\ receiveHandler st = Some 0%nat
  /\ destination (decodePacket buf) = []
  /\ handler_calls (snd (onReceivedBuffer st (Some buf)))
     = [(0%nat, decodePacket buf)].
Proof.
  cbv zeta.
  assert (Hv : valid_frame [1; 0; 7; 0; 9; 15]) by valid_frame_by_computation.
  assert (Hl : buf_length [1; 0; 7; 0; 9; 15] = 6) by reflexivity.
  assert (Hf : Z.land (flags (decodePacket [1; 0; 7; 0; 9; 15])) FLAG_IS_ACK = 0)
    by reflexivity.
  assert (Hh : receiveHandler (mkState [55] (Some 0%nat) [] []) = Some 0%nat)
    by reflexivity.
  split; [exact Hv|]. split; [exact Hl|]. split; [exact Hf|]. split; [exact Hh|].
  exact (six_byte_buffer_reaches_handler _ _ _ Hv Hl Hf Hh).
Defined.
